(** * PDF-Vault: the seal layer and the proof-record lifecycle

    A shallow embedding of the server side of the repository:

    - [server/services/sealService.ts]  (class [SealService];
                                         src/unnamed/part_007),
    - [server/services/walrusService.ts] (src/unnamed/part_008),
    - [server/storage.ts]               (class [MemStorage]),
    - [server/routes.ts]                (two revisions of [registerRoutes]:
                                         src/unnamed/part_005 and part_006),

    followed by the properties of the specification that can be stated on it.

    Conventions.  A [Buffer] is a list of bytes, a byte is an [N] below 256.
    JavaScript strings are [string]s (the identities and codes handled here are
    ASCII: hex digits and wallet addresses).  An optional property
    ([undefined], [null]) is an [option].  The two process-wide [Map]s are
    finite maps with string keys.  A handler runs from the request to the
    response without interleaving with another one; the delays of the mock
    services and [console.log] are not modelled. *)

From Stdlib Require Import NArith ZArith List String Ascii Bool Lia.
From stdpp Require Import base option list gmap strings.
Import ListNotations.

(** ** JavaScript values *)

Module Js.

(** Truthiness of a [string | undefined]: [undefined] and the empty string are
    falsy. *)
Definition truthy (v : option string) : bool :=
  match v with
  | Some EmptyString => false
  | Some _ => true
  | None => false
  end.

(** [a || b] on optional strings. *)
Definition or_else (a b : option string) : option string :=
  if truthy a then a else b.

Definition lowerAscii (c : ascii) : ascii :=
  let n := N_of_ascii c in
  if ((65 <=? n) && (n <=? 90))%N then ascii_of_N (n + 32) else c.

(** [String.prototype.toLowerCase] on strings of ASCII characters, where it
    lowers [A]-[Z] and nothing else.  JavaScript also lowers letters outside
    ASCII: a statement that depends on two identities comparing as different
    assumes [isAscii] of both. *)
Fixpoint toLowerCase (s : string) : string :=
  match s with
  | EmptyString => EmptyString
  | String c r => String (lowerAscii c) (toLowerCase r)
  end.

(** Whether every character of [s] is an ASCII character (code below 128).
    On such a string [String.length] is JavaScript's [.length]. *)
Definition isAscii (s : string) : bool :=
  forallb (fun c => (N_of_ascii c <? 128)%N) (list_ascii_of_string s).

(** [hay.includes(needle)]. *)
Fixpoint includes (hay needle : string) : bool :=
  String.prefix needle hay ||
  match hay with
  | EmptyString => false
  | String _ r => includes r needle
  end.

(** [s.substring(0, n)]. *)
Fixpoint substring0 (n : nat) (s : string) : string :=
  match n, s with
  | S k, String c r => String c (substring0 k r)
  | _, _ => EmptyString
  end.

(** [xs.some(p)]. *)
Definition some {A} (p : A -> bool) (xs : list A) : bool := existsb p xs.

End Js.

(** ** Buffers *)

Module Buf.

Definition hexDigit (n : N) : ascii :=
  if (n <? 10)%N then ascii_of_N (48 + n) else ascii_of_N (87 + n).

Definition hexByte (b : N) : string :=
  String (hexDigit ((b / 16) mod 16)) (String (hexDigit (b mod 16)) EmptyString).

(** [buf.toString('hex')]. *)
Fixpoint toHex (b : list N) : string :=
  match b with
  | [] => EmptyString
  | x :: r => hexByte x +:+ toHex r
  end.

Definition hexVal (c : ascii) : option N :=
  let n := N_of_ascii c in
  if ((48 <=? n) && (n <=? 57))%N then Some (n - 48)%N
  else if ((97 <=? n) && (n <=? 102))%N then Some (n - 87)%N
  else if ((65 <=? n) && (n <=? 70))%N then Some (n - 55)%N
  else None.

(** [Buffer.from(s, 'hex')]: pairs of hex digits are decoded until the first
    pair that is not hexadecimal; an odd last character is dropped. *)
Fixpoint fromHex (s : string) : list N :=
  match s with
  | String a (String b r) =>
      match hexVal a, hexVal b with
      | Some x, Some y => (16 * x + y)%N :: fromHex r
      | _, _ => []
      end
  | _ => []
  end.

(** An index argument of [subarray]: negative values count from the end, and
    the result is clamped to the buffer. *)
Definition clampIndex (len i : Z) : Z :=
  if (i <? 0)%Z then Z.max (len + i) 0 else Z.min i len.

(** [buf.subarray(start, end)]. *)
Definition subarray (b : list N) (start stop : Z) : list N :=
  let len := Z.of_nat (length b) in
  let s := clampIndex len start in
  let e := clampIndex len stop in
  take (Z.to_nat (e - s)) (drop (Z.to_nat s) b).

(** [buf.subarray(start)]. *)
Definition subarrayFrom (b : list N) (start : Z) : list N :=
  subarray b start (Z.of_nat (length b)).

(** The bytes of an ASCII string. *)
Fixpoint ofString (s : string) : list N :=
  match s with
  | EmptyString => []
  | String c r => N_of_ascii c :: ofString r
  end.

(** Big-endian value of a byte sequence, and the [n] big-endian bytes of a
    number. *)
Definition toNum (b : list N) : N :=
  fold_left (fun acc x => (acc * 256 + x mod 256)%N) b 0%N.

Definition ofNum (n : nat) (v : N) : list N :=
  map (fun i => (N.shiftr v (8 * N.of_nat (n - 1 - i)) mod 256)%N) (seq 0 n).

Definition xorBytes (a b : list N) : list N :=
  map (fun p => N.lxor (fst p) (snd p)) (combine a b).

End Buf.

(** ** SHA-256 ([crypto.createHash('sha256')]) *)

Module Sha256.

Local Open Scope N_scope.

Definition mask32 : N := 4294967295.
Definition add32 (a b : N) : N := N.land (a + b) mask32.
Definition rotr (n x : N) : N :=
  N.land (N.lor (N.shiftr x n) (N.shiftl x (32 - n))) mask32.
Definition shr (n x : N) : N := N.shiftr x n.
Definition not32 (x : N) : N := N.lxor x mask32.

Definition Ch (x y z : N) : N := N.lxor (N.land x y) (N.land (not32 x) z).
Definition Maj (x y z : N) : N :=
  N.lxor (N.lxor (N.land x y) (N.land x z)) (N.land y z).
Definition bsig0 (x : N) : N := N.lxor (N.lxor (rotr 2 x) (rotr 13 x)) (rotr 22 x).
Definition bsig1 (x : N) : N := N.lxor (N.lxor (rotr 6 x) (rotr 11 x)) (rotr 25 x).
Definition ssig0 (x : N) : N := N.lxor (N.lxor (rotr 7 x) (rotr 18 x)) (shr 3 x).
Definition ssig1 (x : N) : N := N.lxor (N.lxor (rotr 17 x) (rotr 19 x)) (shr 10 x).

(** The round constants are the fractional parts of the cube roots of the
    first 64 primes, the initial state those of the square roots of the
    first 8. *)
Definition isPrime (n : nat) : bool :=
  forallb (fun d => negb (Nat.eqb (Nat.modulo n d) 0)) (seq 2 (n - 2)).

Definition primes64 : list N :=
  Eval vm_compute in map N.of_nat (filter (fun n => isPrime n) (seq 2 310)).

Fixpoint icbrt_aux (bits : nat) (acc v : N) : N :=
  match bits with
  | O => acc
  | S k =>
      let c := acc + 2 ^ N.of_nat k in
      if c * c * c <=? v then icbrt_aux k c v else icbrt_aux k acc v
  end.

Definition K : list N :=
  Eval vm_compute in
    map (fun p => N.land (icbrt_aux 40 0 (p * 2 ^ 96)) mask32) primes64.

Definition H0 : list N :=
  Eval vm_compute in
    map (fun p => N.land (N.sqrt (p * 2 ^ 64)) mask32) (take 8 primes64).

(** Padding: a 1 bit, zeros, and the bit length on 64 bits. *)
Definition pad (msg : list N) : list N :=
  let len := length msg in
  let zeros := ((64 - (len + 9) mod 64) mod 64)%nat in
  msg ++ [128] ++ repeat 0 zeros ++ Buf.ofNum 8 (8 * N.of_nat len).

Fixpoint chunks (fuel n : nat) (l : list N) : list (list N) :=
  match fuel with
  | O => []
  | S f =>
      match l with
      | [] => []
      | _ => take n l :: chunks f n (drop n l)
      end
  end.

Definition words (block : list N) : list N :=
  map Buf.toNum (chunks 16 4 block).

(** The message schedule, most recent word first while it is built. *)
Fixpoint extend (n : nat) (rev_w : list N) : list N :=
  match n with
  | O => rev_w
  | S k =>
      let w := add32 (add32 (ssig1 (nth 1 rev_w 0)) (nth 6 rev_w 0))
                     (add32 (ssig0 (nth 14 rev_w 0)) (nth 15 rev_w 0)) in
      extend k (w :: rev_w)
  end.

Definition schedule (block : list N) : list N :=
  rev (extend 48 (rev (words block))).

Record regs := Regs { ra : N; rb : N; rc : N; rd : N; re : N; rf : N; rg : N; rh : N }.

Definition round (s : regs) (kw : N * N) : regs :=
  let t1 := add32 (add32 (add32 (rh s) (bsig1 (re s))) (Ch (re s) (rf s) (rg s)))
                  (add32 (fst kw) (snd kw)) in
  let t2 := add32 (bsig0 (ra s)) (Maj (ra s) (rb s) (rc s)) in
  Regs (add32 t1 t2) (ra s) (rb s) (rc s) (add32 (rd s) t1) (re s) (rf s) (rg s).

Definition compress (h : regs) (block : list N) : regs :=
  let s := fold_left round (combine K (schedule block)) h in
  Regs (add32 (ra h) (ra s)) (add32 (rb h) (rb s)) (add32 (rc h) (rc s))
       (add32 (rd h) (rd s)) (add32 (re h) (re s)) (add32 (rf h) (rf s))
       (add32 (rg h) (rg s)) (add32 (rh h) (rh s)).

Definition init : regs :=
  Regs (nth 0 H0 0) (nth 1 H0 0) (nth 2 H0 0) (nth 3 H0 0)
       (nth 4 H0 0) (nth 5 H0 0) (nth 6 H0 0) (nth 7 H0 0).

Definition digest (msg : list N) : list N :=
  let p := pad msg in
  let s := fold_left compress (chunks (length p) 64 p) init in
  concat (map (Buf.ofNum 4) [ra s; rb s; rc s; rd s; re s; rf s; rg s; rh s]).

(** [createHash('sha256').update(buf).digest('hex')]. *)
Definition hexdigest (msg : list N) : string := Buf.toHex (digest msg).

End Sha256.

(** ** AES-256 (the block cipher behind ['aes-256-gcm']) *)

Module Aes.

Local Open Scope N_scope.

(** Multiplication by [x] and by any byte in GF(2^8), modulo
    [x^8 + x^4 + x^3 + x + 1]. *)
Definition xtime (a : N) : N :=
  let d := N.shiftl a 1 in
  if N.testbit a 7 then N.land (N.lxor d 27) 255 else N.land d 255.

Fixpoint gmul_aux (bits : nat) (a b acc : N) : N :=
  match bits with
  | O => acc
  | S k =>
      gmul_aux k (xtime a) (N.shiftr b 1) (if N.odd b then N.lxor acc a else acc)
  end.

Definition gmul (a b : N) : N := gmul_aux 8 a b 0.

Definition ginv (a : N) : N :=
  match find (fun y => gmul a y =? 1) (map N.of_nat (seq 1 255)) with
  | Some y => y
  | None => 0
  end.

Definition rotl8 (n x : N) : N :=
  N.land (N.lor (N.shiftl x n) (N.shiftr x (8 - n))) 255.

Definition affine (b : N) : N :=
  N.lxor (N.lxor (N.lxor (N.lxor (N.lxor b (rotl8 1 b)) (rotl8 2 b)) (rotl8 3 b))
                 (rotl8 4 b)) 99.

Definition sboxTable : list N :=
  Eval vm_compute in map (fun i => affine (ginv (N.of_nat i))) (seq 0 256).

Definition sbox (b : N) : N := nth (N.to_nat (N.land b 255)) sboxTable 0.

(** The state is the block in input order: byte [4c + r] is row [r] of
    column [c]. *)
Definition subBytes (s : list N) : list N := map sbox s.

Definition shiftRows (s : list N) : list N :=
  map (fun i => nth (4 * ((i / 4 + i mod 4) mod 4) + i mod 4)%nat s 0) (seq 0 16).

Definition mixColumn (c : list N) : list N :=
  let a i := nth i c 0 in
  [ N.lxor (N.lxor (gmul 2 (a 0%nat)) (gmul 3 (a 1%nat))) (N.lxor (a 2%nat) (a 3%nat));
    N.lxor (N.lxor (a 0%nat) (gmul 2 (a 1%nat))) (N.lxor (gmul 3 (a 2%nat)) (a 3%nat));
    N.lxor (N.lxor (a 0%nat) (a 1%nat)) (N.lxor (gmul 2 (a 2%nat)) (gmul 3 (a 3%nat)));
    N.lxor (N.lxor (gmul 3 (a 0%nat)) (a 1%nat)) (N.lxor (a 2%nat) (gmul 2 (a 3%nat))) ].

Definition mixColumns (s : list N) : list N :=
  concat (map mixColumn (Sha256.chunks 4 4 s)).

Definition addRoundKey (s k : list N) : list N := Buf.xorBytes s k.

(** Key expansion for a 256-bit key: 60 words, most recent first while they
    are built. *)
Definition rotWord (w : list N) : list N := drop 1 w ++ take 1 w.

Fixpoint expand (n : nat) (i : nat) (rcon : N) (rev_w : list (list N)) : list (list N) :=
  match n with
  | O => rev_w
  | S k =>
      let prev := nth 0 rev_w [] in
      let back := nth 7 rev_w [] in
      if Nat.eqb (i mod 8) 0 then
        let t := Buf.xorBytes (map sbox (rotWord prev)) [rcon; 0; 0; 0] in
        expand k (S i) (xtime rcon) (Buf.xorBytes back t :: rev_w)
      else if Nat.eqb (i mod 8) 4 then
        expand k (S i) rcon (Buf.xorBytes back (map sbox prev) :: rev_w)
      else
        expand k (S i) rcon (Buf.xorBytes back prev :: rev_w)
  end.

(** The 15 round keys of 16 bytes. *)
Definition roundKeys (key : list N) : list (list N) :=
  let w := rev (expand 52 8 1 (rev (Sha256.chunks 8 4 key))) in
  map (fun r => concat (take 4 (drop (4 * r) w))) (seq 0 15).

Definition aesRound (s k : list N) : list N :=
  addRoundKey (mixColumns (shiftRows (subBytes s))) k.

Definition cipher (rk : list (list N)) (block : list N) : list N :=
  let s0 := addRoundKey block (nth 0 rk []) in
  let s13 := fold_left aesRound (take 13 (drop 1 rk)) s0 in
  addRoundKey (shiftRows (subBytes s13)) (nth 14 rk []).

(** The block cipher on 128-bit numbers. *)
Definition encryptBlock (rk : list (list N)) (block : N) : N :=
  Buf.toNum (cipher rk (Buf.ofNum 16 block)).

End Aes.

(** ** Galois/Counter mode *)

Module Gcm.

Local Open Scope N_scope.

(** Multiplication in GF(2^128); bit 0 of a block is its leftmost bit. *)
Definition R : N := N.shiftl 225 120.

Fixpoint gfmul_aux (bits : nat) (x z v : N) : N :=
  match bits with
  | O => z
  | S k =>
      let z' := if N.testbit x (N.of_nat k) then N.lxor z v else z in
      let v' := if N.odd v then N.lxor (N.shiftr v 1) R else N.shiftr v 1 in
      gfmul_aux k x z' v'
  end.

Definition gfmul (x y : N) : N := gfmul_aux 128 x 0 y.

Definition ghash (h : N) (blocks : list N) : N :=
  fold_left (fun y x => gfmul (N.lxor y x) h) blocks 0.

(** The 128-bit blocks of a byte string, the last one padded with zeros. *)
Definition blocksOf (b : list N) : list N :=
  map (fun c => Buf.toNum (c ++ repeat 0 (16 - length c)))
      (Sha256.chunks (length b) 16 b).

Definition lenBlock (aadBytes ctBytes : nat) : N :=
  N.lor (N.shiftl (8 * N.of_nat aadBytes) 64) (8 * N.of_nat ctBytes).

(** The pre-counter block: a 96-bit IV is used as it is, any other length is
    hashed. *)
Definition j0 (h : N) (iv : list N) : N :=
  if Nat.eqb (length iv) 12 then Buf.toNum (iv ++ [0; 0; 0; 1])
  else ghash h (blocksOf iv ++ [lenBlock 0 (length iv)]).

Definition mask32 : N := 4294967295.

(** The counter block [i] steps after [cb]: the last 32 bits count, modulo
    2^32. *)
Definition incr (i : nat) (cb : N) : N :=
  N.lor (N.ldiff cb mask32) (N.land (cb + N.of_nat i) mask32).

Definition keystream (rk : list (list N)) (icb : N) (nblocks : nat) : list N :=
  concat (map (fun i => Buf.ofNum 16 (Aes.encryptBlock rk (incr i icb)))
              (seq 0 nblocks)).

Definition gctr (rk : list (list N)) (icb : N) (x : list N) : list N :=
  Buf.xorBytes x (keystream rk icb ((length x + 15) / 16)).

Definition tagOf (rk : list (list N)) (h j : N) (ct : list N) : list N :=
  let s := ghash h (blocksOf ct ++ [lenBlock 0 (length ct)]) in
  Buf.ofNum 16 (N.lxor s (Aes.encryptBlock rk j)).

(** Authenticated encryption without associated data: ciphertext and tag. *)
Definition encrypt (key iv pt : list N) : list N * list N :=
  let rk := Aes.roundKeys key in
  let h := Aes.encryptBlock rk 0 in
  let j := j0 h iv in
  let ct := gctr rk (incr 1 j) pt in
  (ct, tagOf rk h j ct).

(** Decryption: the plaintext, and the tag the ciphertext should carry. *)
Definition decrypt (key iv ct : list N) : list N * list N :=
  let rk := Aes.roundKeys key in
  let h := Aes.encryptBlock rk 0 in
  let j := j0 h iv in
  (gctr rk (incr 1 j) ct, tagOf rk h j ct).

End Gcm.

(** ** The server's state and its effects

    Handlers run over a [World]: the two [Map]s the singletons hold, the
    random bytes the process will draw, the clock, and a record of the calls
    made to the services (a ghost field, used only to state what a handler
    did not do).  A computation returns a value or throws an [Error] with a
    message; the state it reached is kept either way. *)

Inductive AccessMode := owner_only | specific_wallets | secret_code.

Record Policy := {
  allowedViewers : option (list string);
  secretAccessCode : option string;
  requireApproval : option bool;
  accessMode : option AccessMode
}.

Record SealObject := {
  ownerAddress : string;
  encryptionKey : string;
  policy : Policy;
  createdAt : N
}.

Record CVProof := {
  id : string;
  walletAddress : string;
  fileHash : string;
  sealObjectId : string;
  ciphertextHash : string;
  contentId : string;
  storageUrl : string;
  txHash : string;
  proofCode : string;
  proofSecretAccessCode : option string;
  proofAllowedViewers : option (list string);
  proofCreatedAt : N
}.

Inductive Call :=
| CallRetrieveFromWalrus (contentId : string)
| CallGetDecryptionKey (sealObjectId : string) (viewer code : option string)
| CallComputeCiphertextHash (ciphertext : list N)
| CallDecryptCV (ciphertext : list N) (decryptKey : string).

Record World := {
  entropy : nat -> N;
  drawn : nat;
  now : N;
  sealObjects : gmap string SealObject;
  cvProofs : gmap string CVProof;
  calls : list Call
}.

Inductive result (A : Type) :=
| Ok (a : A)
| Throw (message : string).
Arguments Ok {A} a.
Arguments Throw {A} message.

Definition M (A : Type) : Type := World -> result A * World.

Definition ret {A} (a : A) : M A := fun w => (Ok a, w).

Definition throw {A} (message : string) : M A := fun w => (Throw message, w).

Definition bind {A B} (c : M A) (k : A -> M B) : M B :=
  fun w =>
    match c w with
    | (Ok a, w') => k a w'
    | (Throw m, w') => (Throw m, w')
    end.

(** [try { c } catch (error) { h(error.message) }]. *)
Definition try_catch {A} (c : M A) (h : string -> M A) : M A :=
  fun w =>
    match c w with
    | (Ok a, w') => (Ok a, w')
    | (Throw m, w') => h m w'
    end.

Definition lift {A} (r : result A) : M A := fun w => (r, w).

Notation "x <- c ;; k" := (bind c (fun x => k))
  (at level 100, c at next level, right associativity).
Notation "c ;; k" := (bind c (fun _ => k))
  (at level 100, right associativity).

(** The world after one more call to a service, after a [Map.set] on the
    seal objects or on the proofs, and after [n] random bytes were drawn. *)
Definition withCall (w : World) (c : Call) : World :=
  {| entropy := entropy w; drawn := drawn w; now := now w;
     sealObjects := sealObjects w; cvProofs := cvProofs w;
     calls := calls w ++ [c] |}.

Definition withSealObject (w : World) (k : string) (o : SealObject) : World :=
  {| entropy := entropy w; drawn := drawn w; now := now w;
     sealObjects := <[k := o]> (sealObjects w); cvProofs := cvProofs w;
     calls := calls w |}.

Definition withCVProof (w : World) (k : string) (p : CVProof) : World :=
  {| entropy := entropy w; drawn := drawn w; now := now w;
     sealObjects := sealObjects w; cvProofs := <[k := p]> (cvProofs w);
     calls := calls w |}.

Definition withDrawn (w : World) (n : nat) : World :=
  {| entropy := entropy w; drawn := drawn w + n; now := now w;
     sealObjects := sealObjects w; cvProofs := cvProofs w;
     calls := calls w |}.

Definition called (c : Call) : M unit := fun w => (Ok tt, withCall w c).

Definition setSealObject (k : string) (o : SealObject) : M unit :=
  fun w => (Ok tt, withSealObject w k o).

Definition setCVProof (k : string) (p : CVProof) : M unit :=
  fun w => (Ok tt, withCVProof w k p).

(** [new Date()]. *)
Definition newDate : M N := fun w => (Ok (now w), w).

(** ** Node's [crypto] module *)

Module Crypto.

(** [crypto.randomBytes(n)]: the next [n] bytes of the world's entropy. *)
Definition randomBytes (n : nat) : M (list N) :=
  fun w =>
    (Ok (map (fun i => (entropy w i mod 256)%N) (seq (drawn w) n)), withDrawn w n).

(** [crypto.randomUUID()]: 16 random bytes with the version and variant bits
    of a version 4 UUID, printed in groups of 8-4-4-4-12 hex digits. *)
Definition uuidBytes (b : list N) : list N :=
  <[8%nat := N.lor (N.land (nth 8 b 0%N) 63) 128]>
    (<[6%nat := N.lor (N.land (nth 6 b 0%N) 15) 64]> b).

Definition uuidString (b : list N) : string :=
  Buf.toHex (take 4 b) +:+ "-" +:+ Buf.toHex (take 2 (drop 4 b)) +:+ "-" +:+
  Buf.toHex (take 2 (drop 6 b)) +:+ "-" +:+ Buf.toHex (take 2 (drop 8 b)) +:+ "-" +:+
  Buf.toHex (drop 10 b).

Definition randomUUID : M string :=
  b <- randomBytes 16 ;; ret (uuidString (uuidBytes b)).

(** A cipher object of [createCipheriv]: the key, the IV and the input it has
    been given so far. *)
Record Cipher := { cKey : list N; cIv : list N; cInput : list N }.

Definition checkInit (algorithm : string) (key iv : list N) : result unit :=
  if negb (String.eqb algorithm "aes-256-gcm") then Throw "Unknown cipher"
  else if negb (Nat.eqb (length key) 32) then Throw "Invalid key length"
  else if Nat.eqb (length iv) 0 then Throw "Invalid initialization vector"
  else Ok tt.

Definition createCipheriv (algorithm : string) (key iv : list N) : result Cipher :=
  match checkInit algorithm key iv with
  | Ok _ => Ok {| cKey := key; cIv := iv; cInput := [] |}
  | Throw m => Throw m
  end.

(** [cipher.update(data)]: the ciphertext of the new bytes. *)
Definition cipherUpdate (c : Cipher) (data : list N) : list N * Cipher :=
  let input := cInput c ++ data in
  (drop (length (cInput c)) (fst (Gcm.encrypt (cKey c) (cIv c) input)),
   {| cKey := cKey c; cIv := cIv c; cInput := input |}).

(** [cipher.final()]: a stream mode holds nothing back. *)
Definition cipherFinal (c : Cipher) : list N * Cipher := ([], c).

(** [cipher.getAuthTag()] *)
Definition getAuthTag (c : Cipher) : list N :=
  snd (Gcm.encrypt (cKey c) (cIv c) (cInput c)).

(** A decipher object of [createDecipheriv]. *)
Record Decipher := {
  dKey : list N; dIv : list N; dInput : list N; dTag : option (list N)
}.

Definition createDecipheriv (algorithm : string) (key iv : list N) : result Decipher :=
  match checkInit algorithm key iv with
  | Ok _ => Ok {| dKey := key; dIv := iv; dInput := []; dTag := None |}
  | Throw m => Throw m
  end.

Definition validTagLength (n : nat) : bool :=
  Nat.eqb n 4 || Nat.eqb n 8 || (Nat.leb 12 n && Nat.leb n 16).

(** [decipher.setAuthTag(tag)] *)
Definition setAuthTag (d : Decipher) (tag : list N) : result Decipher :=
  if validTagLength (length tag) then
    Ok {| dKey := dKey d; dIv := dIv d; dInput := dInput d; dTag := Some tag |}
  else Throw "Invalid authentication tag length".

(** [decipher.update(data)] *)
Definition decipherUpdate (d : Decipher) (data : list N) : list N * Decipher :=
  let input := dInput d ++ data in
  (drop (length (dInput d)) (fst (Gcm.decrypt (dKey d) (dIv d) input)),
   {| dKey := dKey d; dIv := dIv d; dInput := input; dTag := dTag d |}).

(** [decipher.final()]: throws unless the tag that was set is the tag of the
    ciphertext that was read. *)
Definition decipherFinal (d : Decipher) : result (list N) :=
  match dTag d with
  | Some tag =>
      let expected := snd (Gcm.decrypt (dKey d) (dIv d) (dInput d)) in
      if bool_decide (take (length tag) expected = tag) then Ok []
      else Throw "Unsupported state or unable to authenticate data"
  | None => Throw "Unsupported state or unable to authenticate data"
  end.

End Crypto.

(** ** [sealService.ts]: class [SealService] *)

Module SealService.

Definition ALGORITHM : string := "aes-256-gcm".
Definition IV_LENGTH : nat := 16.
Definition AUTH_TAG_LENGTH : nat := 16.

Record EncryptCVResult := { ciphertext : list N; resultSealObjectId : string }.

Record GetDecryptionKeyResult := { decryptKey : string; approved : bool }.

(** The policy [encryptCV] stores when it is given none. *)
Definition defaultPolicy : Policy :=
  {| allowedViewers := Some []; secretAccessCode := None;
     requireApproval := Some false; accessMode := None |}.

Definition encryptCV (pdfBytes : list N) (owner : string) (pol : option Policy)
  : M EncryptCVResult :=
  keyBytes <- Crypto.randomBytes 32 ;;
  let encryptionKey := Buf.toHex keyBytes in
  iv <- Crypto.randomBytes IV_LENGTH ;;
  cipher <- lift (Crypto.createCipheriv ALGORITHM (Buf.fromHex encryptionKey) iv) ;;
  let (out1, cipher1) := Crypto.cipherUpdate cipher pdfBytes in
  let (out2, cipher2) := Crypto.cipherFinal cipher1 in
  let encrypted := out1 ++ out2 in
  let authTag := Crypto.getAuthTag cipher2 in
  let ciphertext := iv ++ encrypted ++ authTag in
  idBytes <- Crypto.randomBytes 16 ;;
  let sealObjectId := "seal_" +:+ Buf.toHex idBytes in
  date <- newDate ;;
  setSealObject sealObjectId
    {| ownerAddress := owner;
       encryptionKey := encryptionKey;
       policy := default defaultPolicy pol;
       createdAt := date |} ;;
  ret {| ciphertext := ciphertext; resultSealObjectId := sealObjectId |}.

(** The body of [getDecryptionKey] once the seal object has been found. *)
Definition evaluate (so : SealObject) (viewerAddress code : option string)
  : result GetDecryptionKeyResult :=
  let pol := policy so in
  if Js.truthy code && Js.truthy (secretAccessCode pol) then
    (* Method 1: secret access code *)
    if bool_decide (code = secretAccessCode pol) then
      Ok {| decryptKey := encryptionKey so; approved := true |}
    else Throw "Access denied. Invalid secret access code."
  else if Js.truthy viewerAddress then
    (* Method 2: wallet-based access control *)
    let viewer := default "" viewerAddress in
    let isOwner :=
      String.eqb (Js.toLowerCase viewer) (Js.toLowerCase (ownerAddress so)) in
    let isAllowedViewer :=
      match allowedViewers pol with
      | Some vs =>
          Js.some (fun addr => String.eqb (Js.toLowerCase addr) (Js.toLowerCase viewer)) vs
      | None => false
      end in
    let approved :=
      isOwner || isAllowedViewer || negb (default false (requireApproval pol)) in
    if negb approved then
      Throw ("Access denied. Wallet " +:+ viewer +:+
             " is not authorized to decrypt this CV.")
    else Ok {| decryptKey := encryptionKey so; approved := true |}
  else
    Throw "Access denied. Please provide either a wallet address or secret access code.".

Definition getDecryptionKey (sealObjectId : string) (viewerAddress code : option string)
  : M GetDecryptionKeyResult :=
  called (CallGetDecryptionKey sealObjectId viewerAddress code) ;;
  fun w =>
    match sealObjects w !! sealObjectId with
    | None => (Throw ("Seal object not found: " +:+ sealObjectId), w)
    | Some so => (evaluate so viewerAddress code, w)
    end.

(** The body of [decryptCV]: unpack [iv || encrypted || authTag] and decipher. *)
Definition decipher (ciphertext : list N) (decryptKey : string) : result (list N) :=
  let len := Z.of_nat (length ciphertext) in
  let iv := Buf.subarray ciphertext 0 (Z.of_nat IV_LENGTH) in
  let authTag := Buf.subarrayFrom ciphertext (len - Z.of_nat AUTH_TAG_LENGTH) in
  let encrypted :=
    Buf.subarray ciphertext (Z.of_nat IV_LENGTH) (len - Z.of_nat AUTH_TAG_LENGTH) in
  match Crypto.createDecipheriv ALGORITHM (Buf.fromHex decryptKey) iv with
  | Throw m => Throw m
  | Ok d0 =>
      match Crypto.setAuthTag d0 authTag with
      | Throw m => Throw m
      | Ok d1 =>
          let (out1, d2) := Crypto.decipherUpdate d1 encrypted in
          match Crypto.decipherFinal d2 with
          | Throw m => Throw m
          | Ok out2 => Ok (out1 ++ out2)
          end
      end
  end.

Definition decryptCV (ciphertext : list N) (decryptKey : string) : M (list N) :=
  called (CallDecryptCV ciphertext decryptKey) ;;
  lift (decipher ciphertext decryptKey).

Definition computeCiphertextHash (ciphertext : list N) : M string :=
  called (CallComputeCiphertextHash ciphertext) ;;
  ret (Sha256.hexdigest ciphertext).

End SealService.

(** ** [walrusService.ts] *)

Module Walrus.

Record WalrusUploadResult := { uploadContentId : string; uploadStorageUrl : string }.

(** [s.replace(/-/g, "")] *)
Fixpoint removeDashes (s : string) : string :=
  match s with
  | EmptyString => EmptyString
  | String c r =>
      if Ascii.eqb c "-"%char then removeDashes r else String c (removeDashes r)
  end.

Definition uploadCVToWalrus (fileBuffer : list N) (fileName : string)
  : M WalrusUploadResult :=
  u <- Crypto.randomUUID ;;
  let contentId := "walrus_" +:+ removeDashes u in
  ret {| uploadContentId := contentId;
         uploadStorageUrl := "https://walrus.storage/blob/" +:+ contentId |}.

(** In mock mode no file is stored: every retrieval answers [null]. *)
Definition retrieveFromWalrus (contentId : string) : M (option (list N)) :=
  called (CallRetrieveFromWalrus contentId) ;;
  ret None.

(** The retrieval of a blob store that does hold files: the contract
    [get(contentId) -> bytes | absent] of the collaborator, of which
    [retrieveFromWalrus] is the instance that holds none. *)
Definition retrieveFromStore (store : string -> option (list N)) (contentId : string)
  : M (option (list N)) :=
  called (CallRetrieveFromWalrus contentId) ;;
  ret (store contentId).

End Walrus.

(** ** [storage.ts]: class [MemStorage] *)

Module MemStorage.

Record InsertCVProof := {
  insWalletAddress : string;
  insFileHash : string;
  insSealObjectId : string;
  insCiphertextHash : string;
  insContentId : string;
  insStorageUrl : string;
  insTxHash : string;
  insProofCode : string;
  insSecretAccessCode : option string;
  insAllowedViewers : option (list string)
}.

Definition createCVProof (ins : InsertCVProof) : M CVProof :=
  uuid <- Crypto.randomUUID ;;
  date <- newDate ;;
  let proof :=
    {| id := uuid;
       walletAddress := insWalletAddress ins;
       fileHash := insFileHash ins;
       sealObjectId := insSealObjectId ins;
       ciphertextHash := insCiphertextHash ins;
       contentId := insContentId ins;
       storageUrl := insStorageUrl ins;
       txHash := insTxHash ins;
       proofCode := insProofCode ins;
       proofSecretAccessCode := insSecretAccessCode ins;
       proofAllowedViewers := insAllowedViewers ins;
       proofCreatedAt := date |} in
  setCVProof (proofCode proof) proof ;;
  ret proof.

Definition getCVProofByCode (code : string) : M (option CVProof) :=
  fun w => (Ok (cvProofs w !! code), w).

(** [{ ...proof, txHash }] *)
Definition withTxHash (p : CVProof) (tx : string) : CVProof :=
  {| id := id p;
     walletAddress := walletAddress p;
     fileHash := fileHash p;
     sealObjectId := sealObjectId p;
     ciphertextHash := ciphertextHash p;
     contentId := contentId p;
     storageUrl := storageUrl p;
     txHash := tx;
     proofCode := proofCode p;
     proofSecretAccessCode := proofSecretAccessCode p;
     proofAllowedViewers := proofAllowedViewers p;
     proofCreatedAt := proofCreatedAt p |}.

(** Modelled from the spec: [storage.updateCVProofTxHash], which the
    update-tx route calls, is not part of [storage.ts] as it is in the
    sources.  The specification gives its contract,
    [updateAnchorTxId(code, newTxId) -> record | absent]: the record stored
    under [code] gets the new transaction id and nothing else changes; an
    unknown code answers absent. *)
Definition updateCVProofTxHash (code tx : string) : M (option CVProof) :=
  fun w =>
    match cvProofs w !! code with
    | None => (Ok None, w)
    | Some p =>
        (Ok (Some (withTxHash p tx)), withCVProof w code (withTxHash p tx))
    end.

End MemStorage.

(** ** [routes.ts]: the handlers of [registerRoutes]

    A handler answers with a status and a body.  The request is taken after
    [multer] and the JSON parsing of [allowedViewers]; [registerSchema] is the
    check on the wallet address (the enum and the array types are in the
    types of [RegisterData]). *)

Inductive Body :=
| Message (message : string)
| ValidationFailed
| ProofJson (proof : CVProof)
| Pdf (bytes : list N) (filename : string).

Record Response := { status : N; body : Body }.

Record RegisterData := {
  reqWalletAddress : string;
  reqAccessMode : option AccessMode;
  reqAllowedViewers : option (list string);
  reqSecretAccessCode : option string
}.

Module Routes.

Definition json (code : N) (b : Body) : M Response :=
  ret {| status := code; body := b |}.

Definition isMode (m : AccessMode) (a : option AccessMode) : bool :=
  match a, m with
  | Some owner_only, owner_only => true
  | Some specific_wallets, specific_wallets => true
  | Some secret_code, secret_code => true
  | _, _ => false
  end.

(** The policy object the register route hands to [encryptCV]
    (src/unnamed/part_005, lines 96-104). *)
Definition registerPolicy (mode : option AccessMode) (viewers : option (list string))
  (generatedSecretCode : option string) : Policy :=
  {| allowedViewers :=
       Some (if isMode specific_wallets mode then default [] viewers else []);
     secretAccessCode := generatedSecretCode;
     requireApproval := Some (isMode owner_only mode);
     accessMode := None |}.

(** The same object in the revision of the routes that adds the signed owner
    download (src/unnamed/part_006, lines 97-105): it names the mode and has
    no [requireApproval]. *)
Definition registerPolicyAuth (mode : option AccessMode) (viewers : option (list string))
  (generatedSecretCode : option string) : Policy :=
  {| allowedViewers :=
       Some (if isMode specific_wallets mode then default [] viewers else []);
     secretAccessCode := generatedSecretCode;
     requireApproval := None;
     accessMode := Some (default owner_only mode) |}.

Section Register.

(** [registerCVProofOnSui] (suiService.ts) is not among the sources: the
    anchoring call is a parameter.  It is given the file hash, the content
    id, the wallet address, the seal object id and the ciphertext hash, and
    answers a transaction hash and a proof code. *)
Variable registerCVProofOnSui :
  string -> string -> string -> string -> string -> result (string * string).

(** Which policy object the revision at hand builds. *)
Variable policyOf : option AccessMode -> option (list string) -> option string -> Policy.

(** [POST /api/proof/register], from the file multer hands over and the body
    the schema has validated ([validation.data]).  What comes before, the
    file filter, the parse of [allowedViewers] and the schema, is
    [MoreRoutes.registerRequest] below. *)
Definition register (file : option (list N * string)) (data : RegisterData)
  : M Response :=
  try_catch
    (match file with
     | None => json 400 (Message "CV file is required")
     | Some (fileBuffer, fileName) =>
         if Nat.ltb (String.length (reqWalletAddress data)) 10 then
           json 400 ValidationFailed
         else
           let walletAddress := reqWalletAddress data in
           let accessMode := reqAccessMode data in
           let fileHash := Sha256.hexdigest fileBuffer in
           generatedSecretCode <-
             (if isMode secret_code accessMode && negb (Js.truthy (reqSecretAccessCode data))
              then b <- Crypto.randomBytes 8 ;; ret (Some (Buf.toHex b))
              else ret (reqSecretAccessCode data)) ;;
           enc <- SealService.encryptCV fileBuffer walletAddress
                    (Some (policyOf accessMode (reqAllowedViewers data) generatedSecretCode)) ;;
           let ciphertext := SealService.ciphertext enc in
           let sealObjectId := SealService.resultSealObjectId enc in
           ciphertextHash <- SealService.computeCiphertextHash ciphertext ;;
           up <- Walrus.uploadCVToWalrus ciphertext ("encrypted-" +:+ fileName) ;;
           let contentId := Walrus.uploadContentId up in
           anchored <- lift (registerCVProofOnSui fileHash contentId walletAddress
                               sealObjectId ciphertextHash) ;;
           proof <- MemStorage.createCVProof
                      {| MemStorage.insWalletAddress := walletAddress;
                         MemStorage.insFileHash := fileHash;
                         MemStorage.insSealObjectId := sealObjectId;
                         MemStorage.insCiphertextHash := ciphertextHash;
                         MemStorage.insContentId := contentId;
                         MemStorage.insStorageUrl := Walrus.uploadStorageUrl up;
                         MemStorage.insTxHash := fst anchored;
                         MemStorage.insProofCode := snd anchored;
                         MemStorage.insSecretAccessCode :=
                           Js.or_else generatedSecretCode None;
                         MemStorage.insAllowedViewers :=
                           if isMode specific_wallets accessMode
                           then reqAllowedViewers data else None |} ;;
           json 201 (ProofJson proof)
     end)
    (fun message => json 500 (Message message)).

End Register.

(** [POST /api/proof/update-tx] *)
Definition updateTx (proofCode txHash : option string) : M Response :=
  try_catch
    (if negb (Js.truthy proofCode) || negb (Js.truthy txHash) then
       json 400 (Message "Proof code and transaction hash required")
     else
       updatedProof <- MemStorage.updateCVProofTxHash (default "" proofCode)
                         (default "" txHash) ;;
       match updatedProof with
       | None => json 404 (Message "Failed to update proof")
       | Some p => json 200 (ProofJson p)
       end)
    (fun message => json 500 (Message message)).

(** [GET /api/proof/:proofCode] *)
Definition getProof (proofCode : string) : M Response :=
  try_catch
    (proof <- MemStorage.getCVProofByCode proofCode ;;
     match proof with
     | None => json 404 (Message "Proof not found")
     | Some p => json 200 (ProofJson p)
     end)
    (fun message => json 500 (Message message)).

(** The [catch] block of the decrypted route: the status an error is
    answered with is read off its message. *)
Definition errorStatus (message : string) : N :=
  if Js.includes message "Access denied" then 403
  else if Js.includes message "not found" then 404
  else 500.

Definition decryptError (message : string) : M Response :=
  json (errorStatus message) (Message message).

(** [GET /api/proof/:proofCode/decrypted], over the blob store's retrieval
    function. *)
Definition decryptedWith (retrieve : string -> M (option (list N)))
  (proofCode : string) (viewerAddress secretAccessCode : option string)
  : M Response :=
  try_catch
    (proof <- MemStorage.getCVProofByCode proofCode ;;
     match proof with
     | None => json 404 (Message "Proof not found")
     | Some proof =>
         encryptedBuffer <- retrieve (contentId proof) ;;
         match encryptedBuffer with
         | None => json 404 (Message "Encrypted CV not found")
         | Some encryptedBuffer =>
             key <- SealService.getDecryptionKey (sealObjectId proof)
                      viewerAddress secretAccessCode ;;
             computedHash <- SealService.computeCiphertextHash encryptedBuffer ;;
             if negb (String.eqb computedHash (ciphertextHash proof)) then
               json 400 (Message
                 "CV integrity check failed. File may have been tampered with.")
             else
               decryptedPDF <- SealService.decryptCV encryptedBuffer
                                 (SealService.decryptKey key) ;;
               json 200 (Pdf decryptedPDF
                           ("cv-" +:+ Js.substring0 8 proofCode +:+ ".pdf"))
         end
     end)
    decryptError.

(** The route as the server runs it, on [retrieveFromWalrus]. *)
Definition decrypted : string -> option string -> option string -> M Response :=
  decryptedWith Walrus.retrieveFromWalrus.

End Routes.

(** ** Vocabulary of the statements *)

(** The answer of a granted request, and the answers the decrypted route gives
    when the integrity check or the blob store fails. *)
Definition granted (so : SealObject) : result SealService.GetDecryptionKeyResult :=
  Ok {| SealService.decryptKey := encryptionKey so; SealService.approved := true |}.

Definition integrityFailure : Response :=
  {| status := 400;
     body := Message "CV integrity check failed. File may have been tampered with." |}.

Definition blobNotFound : Response :=
  {| status := 404; body := Message "Encrypted CV not found" |}.

Definition missingCredential : string :=
  "Access denied. Please provide either a wallet address or secret access code.".

Definition invalidCode : string := "Access denied. Invalid secret access code.".

Definition notAuthorized (viewer : string) : string :=
  "Access denied. Wallet " +:+ viewer +:+ " is not authorized to decrypt this CV.".

(** A string of lower-case hexadecimal digits. *)
Definition hexDigits (s : string) : Prop :=
  forall c, In c (list_ascii_of_string s) ->
            In c (list_ascii_of_string "0123456789abcdef").

(** Identities are compared after [toLowerCase]. *)
Definition sameIdentity (a b : string) : Prop := Js.toLowerCase a = Js.toLowerCase b.

(** The calls to [decryptCV] among the calls a world records. *)
Definition isDecryptCall (c : Call) : bool :=
  match c with
  | CallDecryptCV _ _ => true
  | _ => false
  end.

Definition decryptCalls (w : World) : list Call := filter isDecryptCall (calls w).

(** The secret access code a response carries, if any. *)
Definition disclosedCode (r : result Response) : option string :=
  match r with
  | Ok {| body := ProofJson p |} => proofSecretAccessCode p
  | _ => None
  end.

(** The bytes a world will hand out next. *)
Definition nextBytes (w : World) (skip n : nat) : list N :=
  map (fun i => (entropy w i mod 256)%N) (seq (drawn w + skip) n).

(** Whether the register route generates the secret access code, and the
    code it hands to [encryptCV] and to the storage. *)
Definition generatesCode (data : RegisterData) : bool :=
  Routes.isMode secret_code (reqAccessMode data) &&
  negb (Js.truthy (reqSecretAccessCode data)).

Definition registeredCode (data : RegisterData) (w : World) : option string :=
  if generatesCode data then Some (Buf.toHex (nextBytes w 0 8))
  else reqSecretAccessCode data.

(** ** A concrete run: one registration on an empty server *)

Module Scenario.

Definition world0 : World :=
  {| entropy := fun i => N.of_nat (7 * i + 3);
     drawn := 0;
     now := 1700000000000;
     sealObjects := ∅;
     cvProofs := ∅;
     calls := [] |}.

(** An anchoring service that derives the proof code from the file hash. *)
Definition anchor (fileHash contentId wallet sealObjectId ciphertextHash : string)
  : result (string * string) :=
  Ok ("0xtx" +:+ Js.substring0 8 ciphertextHash, "proof-" +:+ Js.substring0 8 fileHash).

Definition pdf : list N := Buf.ofString "%PDF-1.4 test".

Definition owner : string := "0xABC0000001".
Definition viewer : string := "0x1110000002".
Definition stranger : string := "0x2220000003".

Definition request (mode : AccessMode) (viewers : option (list string)) : RegisterData :=
  {| reqWalletAddress := owner;
     reqAccessMode := Some mode;
     reqAllowedViewers := viewers;
     reqSecretAccessCode := None |}.

(** The server after one registration in the given mode, with the routes
    that set [requireApproval] and with those that do not. *)
Definition registered (mode : AccessMode) (viewers : option (list string)) : World :=
  snd (Routes.register anchor Routes.registerPolicy (Some (pdf, "cv.pdf"))
         (request mode viewers) world0).

Definition registeredAuth (mode : AccessMode) (viewers : option (list string)) : World :=
  snd (Routes.register anchor Routes.registerPolicyAuth (Some (pdf, "cv.pdf"))
         (request mode viewers) world0).

Definition proofCode0 : string := "proof-d6636400".

(** The seal object id of that registration: the one drawn when no code is
    generated first, and the one drawn after the eight bytes of a code. *)
Definition sealId0 : string := "seal_535a61686f767d848b9299a0a7aeb5bc".
Definition sealIdCode : string := "seal_8b9299a0a7aeb5bcc3cad1d8dfe6edf4".

(** The code generated in [secret_code] mode, and the same with its letters
    in upper case. *)
Definition code0 : string := "030a11181f262d34".
Definition code0Upper : string := "030A11181F262D34".

Definition tampered : list N := Buf.ofString "not the stored ciphertext".

(** The seal object and the proof record a world stores under a key (an
    empty one if there is none). *)
Definition sealObjectAt (w : World) (sid : string) : SealObject :=
  default {| ownerAddress := ""; encryptionKey := "";
             policy := SealService.defaultPolicy; createdAt := 0 |}
          (sealObjects w !! sid).

Definition proofAt (w : World) (code : string) : CVProof :=
  default {| id := ""; walletAddress := ""; fileHash := ""; sealObjectId := "";
             ciphertextHash := ""; contentId := ""; storageUrl := ""; txHash := "";
             proofCode := ""; proofSecretAccessCode := None;
             proofAllowedViewers := None; proofCreatedAt := 0 |}
          (cvProofs w !! code).

(** A seal object made by [encryptCV] itself with a policy that requires
    approval and lists one viewer (no route builds such a policy). *)
Definition guardedPolicy : Policy :=
  {| allowedViewers := Some [viewer]; secretAccessCode := None;
     requireApproval := Some true; accessMode := None |}.

Definition sealedGuarded : World :=
  snd (SealService.encryptCV pdf owner (Some guardedPolicy) world0).

(** A blob store that answers every request with the given bytes. *)
Definition storeOf (bytes : list N) (contentId : string) : option (list N) := Some bytes.

End Scenario.

(** * The rest of the server

    The definitions below cover the parts of the same files that the
    statements above do not use: the users and the listing of [MemStorage],
    the other routes, and two helpers of the pages that call them. *)

(** ** A JavaScript [Map] with its order

    A [Map] iterates in the order in which its keys were first inserted, and
    [set] on a key it already has keeps the key's place. *)

Module JsMap.

Section Entries.

Context {V : Type}.

Fixpoint get (k : string) (m : list (string * V)) : option V :=
  match m with
  | [] => None
  | (k', v) :: r => if String.eqb k' k then Some v else get k r
  end.

Fixpoint set (k : string) (v : V) (m : list (string * V)) : list (string * V) :=
  match m with
  | [] => [(k, v)]
  | (k', v') :: r =>
      if String.eqb k' k then (k, v) :: r else (k', v') :: set k v r
  end.

Definition keys (m : list (string * V)) : list string := map fst m.

(** [Array.from(m.values())] *)
Definition values (m : list (string * V)) : list V := map snd m.

End Entries.

End JsMap.

(** ** [storage.ts]: the whole of [MemStorage]

    The users (shared/schema.ts, src/unnamed/part_004) and the proofs, each
    [Map] with its order.  The proofs are also the [cvProofs] of the world,
    which the routes above read: [proofEntries] lists the same records in
    the order of the [Map]. *)

Record User := { userId : string; username : string; password : string }.

Record InsertUser := { insUsername : string; insPassword : string }.

Record Mem := {
  world : World;
  users : list (string * User);
  proofEntries : list (string * CVProof)
}.

(** The entries and the finite map hold the same records. *)
Definition consistent (m : Mem) : Prop :=
  NoDup (JsMap.keys (proofEntries m)) /\
  forall k, JsMap.get k (proofEntries m) = cvProofs (world m) !! k.

Module Storage.

Definition withWorld (m : Mem) (w : World) : Mem :=
  {| world := w; users := users m; proofEntries := proofEntries m |}.

(** A computation that touches neither [Map]'s order. *)
Definition onWorld {A} (c : M A) (m : Mem) : result A * Mem :=
  let (r, w') := c (world m) in (r, withWorld m w').

Definition getUser (id : string) (m : Mem) : result (option User) * Mem :=
  (Ok (JsMap.get id (users m)), m).

Definition getUserByUsername (name : string) (m : Mem) : result (option User) * Mem :=
  (Ok (find (fun user => String.eqb (username user) name) (JsMap.values (users m))), m).

Definition createUser (ins : InsertUser) (m : Mem) : result User * Mem :=
  match Crypto.randomUUID (world m) with
  | (Ok id, w') =>
      let user := {| userId := id; username := insUsername ins;
                     password := insPassword ins |} in
      (Ok user, {| world := w'; users := JsMap.set id user (users m);
                   proofEntries := proofEntries m |})
  | (Throw e, w') => (Throw e, withWorld m w')
  end.

Definition createCVProof (ins : MemStorage.InsertCVProof) (m : Mem) : result CVProof * Mem :=
  match MemStorage.createCVProof ins (world m) with
  | (Ok proof, w') =>
      (Ok proof, {| world := w'; users := users m;
                    proofEntries := JsMap.set (proofCode proof) proof (proofEntries m) |})
  | (Throw e, w') => (Throw e, withWorld m w')
  end.

Definition getCVProofByCode (code : string) (m : Mem) : result (option CVProof) * Mem :=
  (Ok (JsMap.get code (proofEntries m)), m).

Definition getCVProofsByWallet (wallet : string) (m : Mem) : result (list CVProof) * Mem :=
  (Ok (List.filter
         (fun proof =>
            String.eqb (Js.toLowerCase (walletAddress proof)) (Js.toLowerCase wallet))
         (JsMap.values (proofEntries m))), m).

End Storage.

(** ** [routes.ts]: the other handlers *)

Record ListResponse := { listStatus : N; listBody : list CVProof + string }.

(** The request of a registration as it arrives: a value of [JSON.parse]; a
    field of the multipart body as multer leaves it in [req.body] (absent, a
    text, or the array of the texts of a repeated field); the field
    [allowedViewers] before and after the parse; the body; the file part
    [cvFile]. *)
#[warnings="-register-all"] Inductive Json :=
| JNull
| JBool (b : bool)
| JNumber (literal : string)
| JString (s : string)
| JArray (items : list Json)
| JObject (members : list (string * Json)).

Inductive Field := Absent | Text (s : string) | Repeated (l : list string).

Inductive ParsedField := Unparsed (f : Field) | Parsed (j : Json).

Record RawBody := {
  rawWalletAddress : Field;
  rawAccessMode : Field;
  rawAllowedViewers : Field;
  rawSecretAccessCode : Field
}.

Record FilePart := { mimetype : string; buffer : list N; originalname : string }.


Module MoreRoutes.

(** [GET /api/proofs/wallet/:walletAddress] *)
Definition proofsByWallet (wallet : string) (m : Mem) : ListResponse * Mem :=
  match Storage.getCVProofsByWallet wallet m with
  | (Ok proofs, m') => ({| listStatus := 200; listBody := inl proofs |}, m')
  | (Throw e, m') => ({| listStatus := 500; listBody := inr e |}, m')
  end.

(** [POST /api/proof/register] with the order of the proofs kept: the one
    [cvProofs.set] of the route is that of the record it answers with 201. *)
Definition register
  (anchor : string -> string -> string -> string -> string -> result (string * string))
  (policyOf : option AccessMode -> option (list string) -> option string -> Policy)
  (file : option (list N * string)) (data : RegisterData) (m : Mem)
  : result Response * Mem :=
  match Routes.register anchor policyOf file data (world m) with
  | (Ok {| status := 201; body := ProofJson proof |}, w') =>
      (Ok {| status := 201; body := ProofJson proof |},
       {| world := w'; users := users m;
          proofEntries := JsMap.set (proofCode proof) proof (proofEntries m) |})
  | (r, w') => (r, Storage.withWorld m w')
  end.

(** *** The front of the register handler

    What [POST /api/proof/register] does before it has a validated body
    (src/unnamed/part_005, lines 12-31 and 45-71): multer's file filter and
    size limit, the parse of [allowedViewers], the schema. *)

(** The file multer is configured to refuse: any that is not a PDF by its
    MIME type ([cb(null, true)] or [cb(new Error(...))]). *)
Definition fileFilter (file : FilePart) : result bool :=
  if String.eqb (mimetype file) "application/pdf" then Ok true
  else Throw "Only PDF files are allowed".

(** [limits.fileSize] *)
Definition fileSizeLimit : N := 10 * 1024 * 1024.

(** The array of strings of [z.array(z.string())]. *)
Fixpoint strings (items : list Json) : option (list string) :=
  match items with
  | [] => Some []
  | JString s :: r => option_map (cons s) (strings r)
  | _ :: _ => None
  end.

Definition stringArray (j : Json) : option (list string) :=
  match j with
  | JArray items => strings items
  | _ => None
  end.

(** [z.enum(["owner_only", "specific_wallets", "secret_code"]).optional()] *)
Definition schemaAccessMode (f : Field) : option (option AccessMode) :=
  match f with
  | Absent => Some None
  | Text s =>
      if String.eqb s "owner_only" then Some (Some owner_only)
      else if String.eqb s "specific_wallets" then Some (Some specific_wallets)
      else if String.eqb s "secret_code" then Some (Some secret_code)
      else None
  | Repeated _ => None
  end.

(** [z.string().min(10, ...)] *)
Definition schemaWalletAddress (f : Field) : option string :=
  match f with
  | Text s => if Nat.ltb (String.length s) 10 then None else Some s
  | _ => None
  end.

(** [z.array(z.string()).optional()], on [parsedBody.allowedViewers]. *)
Definition schemaAllowedViewers (p : ParsedField) : option (option (list string)) :=
  match p with
  | Unparsed Absent => Some None
  | Unparsed (Text _) => None
  | Unparsed (Repeated l) => Some (Some l)
  | Parsed j => option_map Some (stringArray j)
  end.

(** [z.string().optional()] *)
Definition schemaSecretAccessCode (f : Field) : option (option string) :=
  match f with
  | Absent => Some None
  | Text s => Some (Some s)
  | Repeated _ => None
  end.

(** [registerSchema.safeParse(parsedBody)]: the validated data, or none. *)
Definition registerSchema (body : RawBody) (viewers : ParsedField) : option RegisterData :=
  match schemaWalletAddress (rawWalletAddress body), schemaAccessMode (rawAccessMode body),
        schemaAllowedViewers viewers, schemaSecretAccessCode (rawSecretAccessCode body) with
  | Some wallet, Some mode, Some allowed, Some code =>
      Some {| reqWalletAddress := wallet; reqAccessMode := mode;
              reqAllowedViewers := allowed; reqSecretAccessCode := code |}
  | _, _, _, _ => None
  end.

Section Front.

Variable registerCVProofOnSui :
  string -> string -> string -> string -> string -> result (string * string).
Variable policyOf : option AccessMode -> option (list string) -> option string -> Policy.

(** The two library functions of the front: whether multer finds a file
    over [limits.fileSize], and [JSON.parse]. *)
Variable overLimit : N -> list N -> bool.
Variable jsonParse : string -> result Json.

(** [upload.single("cvFile")]: what becomes of the file part of the request.
    A file the filter or the limit refuses is an error given to Express, and
    the handler does not run. *)
Definition single (part : option FilePart) : result (option (list N * string)) :=
  match part with
  | None => Ok None
  | Some file =>
      match fileFilter file with
      | Throw e => Throw e
      | Ok false => Ok None
      | Ok true =>
          if overLimit fileSizeLimit (buffer file) then Throw "File too large"
          else Ok (Some (buffer file, originalname file))
      end
  end.

(** [parsedBody.allowedViewers]: [JSON.parse] of the field when it is a
    non-empty string. *)
Definition parseAllowedViewers (f : Field) : result ParsedField :=
  match f with
  | Text s =>
      if Js.truthy (Some s) then
        match jsonParse s with
        | Ok j => Ok (Parsed j)
        | Throw _ =>
            Throw "Invalid allowedViewers format. Must be a JSON array of wallet addresses."
        end
      else Ok (Unparsed f)
  | _ => Ok (Unparsed f)
  end.

(** The endpoint on a request as it arrives.  [Throw] is an error raised
    before the handler, which its [catch] does not see. *)
Definition registerRequest (part : option FilePart) (body : RawBody) : M Response :=
  file <- lift (single part) ;;
  match file with
  | None => Routes.json 400 (Message "CV file is required")
  | Some _ =>
      match parseAllowedViewers (rawAllowedViewers body) with
      | Throw message => Routes.json 400 (Message message)
      | Ok viewers =>
          match registerSchema body viewers with
          | None => Routes.json 400 ValidationFailed
          | Some data => Routes.register registerCVProofOnSui policyOf file data
          end
      end
  end.

End Front.

(** [GET /api/cv/:contentId] (deprecated), over the blob store's retrieval
    function, and as the server runs it. *)
Definition downloadWith (retrieve : string -> M (option (list N))) (contentId : string)
  : M Response :=
  try_catch
    (fileBuffer <- retrieve contentId ;;
     match fileBuffer with
     | None => Routes.json 404 (Message "File not found")
     | Some fileBuffer =>
         Routes.json 200 (Pdf fileBuffer
                            ("encrypted-" +:+ Js.substring0 8 contentId +:+ ".pdf"))
     end)
    (fun message => Routes.json 500 (Message message)).

Definition download : string -> M Response := downloadWith Walrus.retrieveFromWalrus.

Section Auth.

(** [verifySignature] (auth.ts) is not among the sources: the check of a
    wallet signature over a challenge nonce is a parameter. *)
Variable verifySignature : string -> string -> string -> result bool.

(** [POST /api/proof/:proofCode/decrypt-owner] (src/unnamed/part_006), over
    the blob store's retrieval function; [requester] is the [walletAddress]
    of the request body. *)
Definition decryptOwnerWith (retrieve : string -> M (option (list N)))
  (proofCode : string) (requester nonce signature : option string) : M Response :=
  try_catch
    (if negb (Js.truthy requester) || negb (Js.truthy nonce)
        || negb (Js.truthy signature) then
       Routes.json 400 (Message "Missing required fields: walletAddress, nonce, signature")
     else
       let wallet := default "" requester in
       isValid <- lift (verifySignature (default "" nonce) wallet (default "" signature)) ;;
       if negb isValid then
         Routes.json 401 (Message "Invalid signature or expired challenge")
       else
         proof <- MemStorage.getCVProofByCode proofCode ;;
         match proof with
         | None => Routes.json 404 (Message "Proof not found")
         | Some proof =>
             if negb (String.eqb (Js.toLowerCase (walletAddress proof))
                                 (Js.toLowerCase wallet)) then
               Routes.json 403 (Message "You do not own this CV proof")
             else
               encryptedBuffer <- retrieve (contentId proof) ;;
               match encryptedBuffer with
               | None => Routes.json 404 (Message "Encrypted CV not found")
               | Some encryptedBuffer =>
                   key <- SealService.getDecryptionKey (sealObjectId proof)
                            (Some wallet) None ;;
                   computedHash <- SealService.computeCiphertextHash encryptedBuffer ;;
                   if negb (String.eqb computedHash (ciphertextHash proof)) then
                     Routes.json 400 (Message "CV integrity check failed")
                   else
                     decryptedPDF <- SealService.decryptCV encryptedBuffer
                                       (SealService.decryptKey key) ;;
                     Routes.json 200
                       (Pdf decryptedPDF
                          ("cv-" +:+ Js.substring0 8 proofCode +:+ ".pdf"))
               end
         end)
    (fun message => Routes.json 500 (Message message)).

End Auth.

End MoreRoutes.

(** ** The pages: [truncateHash]

    The helper the proof pages print hashes with (ProofDisplay.tsx, lines
    88-91, and the same in the profile and proof views); both counts default
    to 12. *)

Module Pages.

(** [s.substring(n)] *)
Fixpoint substringFrom (n : nat) (s : string) : string :=
  match n, s with
  | S k, String _ r => substringFrom k r
  | _, _ => s
  end.

Definition truncateHash (hash : string) (startChars endChars : nat) : string :=
  if Nat.leb (String.length hash) (startChars + endChars) then hash
  else Js.substring0 startChars hash +:+ "..." +:+
       substringFrom (String.length hash - endChars) hash.

End Pages.

(** ** Concrete runs for the rest of the server *)

Module Example.

(** The ciphertext a registration hashed and uploaded: the last call the
    world records. *)
Definition uploaded (w : World) : list N :=
  match last (calls w) with
  | Some (CallComputeCiphertextHash ct) => ct
  | _ => []
  end.

(** A signature check that accepts the nonce itself as the signature. *)
Definition verify (nonce wallet signature : string) : result bool :=
  Ok (String.eqb signature nonce).

(** An anchoring service that is down. *)
Definition anchorDown (fileHash contentId wallet sealObjectId ciphertextHash : string)
  : result (string * string) :=
  Throw "Sui RPC unavailable".

(** A [JSON.parse] that knows the empty array only, a size check, and a
    request of the scenario as it arrives. *)
Definition parse (s : string) : result Json :=
  if String.eqb s "[]" then Ok (JArray []) else Throw "Unexpected token".

Definition overLimit (limit : N) (bytes : list N) : bool :=
  (limit <? N.of_nat (length bytes))%N.

Definition cvFile (mime : string) : FilePart :=
  {| mimetype := mime; buffer := Scenario.pdf; originalname := "cv.pdf" |}.

Definition rawRequest (mode viewers : Field) : RawBody :=
  {| rawWalletAddress := Text Scenario.owner; rawAccessMode := mode;
     rawAllowedViewers := viewers; rawSecretAccessCode := Absent |}.

(** A registration that names no access mode. *)
Definition requestNoMode : RegisterData :=
  {| reqWalletAddress := Scenario.owner; reqAccessMode := None;
     reqAllowedViewers := None; reqSecretAccessCode := None |}.

Definition registeredNoMode : World :=
  snd (Routes.register Scenario.anchor Routes.registerPolicy
         (Some (Scenario.pdf, "cv.pdf")) requestNoMode Scenario.world0).

(** An empty server, and the server after the registration of the scenario
    in [owner_only] mode. *)
Definition mem0 : Mem :=
  {| world := Scenario.world0; users := []; proofEntries := [] |}.

Definition mem1 : Mem :=
  snd (MoreRoutes.register Scenario.anchor Routes.registerPolicy
         (Some (Scenario.pdf, "cv.pdf")) (Scenario.request owner_only None) mem0).

End Example.

(** * Properties *)

(** ** The primitives on known answers

    SHA-256 of ["abc"], the AES-256 example of FIPS 197, the AES-256 test
    vector of the GCM specification with a 96-bit IV, and an answer of
    OpenSSL for a 16-byte IV, the size [encryptCV] uses. *)

Example sha256_abc :
  Sha256.hexdigest (Buf.ofString "abc") =
  "ba7816bf8f01cfea414140de5dae2223b00361a396177a9cb410ff61f20015ad".
Proof. vm_compute. reflexivity. Qed.

Example aes256_fips197 :
  Buf.toHex (Aes.cipher
    (Aes.roundKeys
       (Buf.fromHex "000102030405060708090a0b0c0d0e0f101112131415161718191a1b1c1d1e1f"))
    (Buf.fromHex "00112233445566778899aabbccddeeff")) =
  "8ea2b7ca516745bfeafc49904b496089".
Proof. vm_compute. reflexivity. Qed.

Example gcm_zero_key_96_bit_iv :
  let r := Gcm.encrypt (repeat 0%N 32) (repeat 0%N 12) (repeat 0%N 16) in
  Buf.toHex (fst r) = "cea7403d4d606b6e074ec5d3baf39d18" /\
  Buf.toHex (snd r) = "d0d1c8a799996bf0265b98b5d48ab919".
Proof. vm_compute. split; reflexivity. Qed.

Example gcm_16_byte_iv :
  let r := Gcm.encrypt (map N.of_nat (seq 0 32)) (map N.of_nat (seq 100 16))
             (Buf.ofString "%PDF-1.4 test") in
  Buf.toHex (fst r) = "fde30717c92509ec928dc8fa33" /\
  Buf.toHex (snd r) = "0d13e9fca9a013582e1f1cab436d3710".
Proof. vm_compute. split; reflexivity. Qed.

(** ** Hexadecimal encoding *)

Lemma hexVal_hexDigit (n : N) : (n < 16)%N -> Buf.hexVal (Buf.hexDigit n) = Some n.
Proof.
  intros Hn.
  assert (Hall : forallb (fun k => bool_decide (Buf.hexVal (Buf.hexDigit k) = Some k))
                   (map N.of_nat (seq 0 16)) = true) by (vm_compute; reflexivity).
  rewrite forallb_forall in Hall.
  specialize (Hall n). rewrite bool_decide_eq_true in Hall. apply Hall.
  rewrite <- (N2Nat.id n). apply in_map, in_seq. lia.
Qed.

Lemma toHex_cons (x : N) (r : list N) :
  Buf.toHex (x :: r) =
  String (Buf.hexDigit ((x / 16) mod 16)) (String (Buf.hexDigit (x mod 16)) (Buf.toHex r)).
Proof. reflexivity. Qed.

Lemma fromHex_toHex (b : list N) :
  Forall (fun x => (x < 256)%N) b -> Buf.fromHex (Buf.toHex b) = b.
Proof.
  induction 1 as [|x r Hx _ IH]; [reflexivity|].
  rewrite toHex_cons. cbn [Buf.fromHex].
  rewrite !hexVal_hexDigit by (apply N.mod_lt; lia).
  rewrite IH. f_equal.
  rewrite (N.mod_small (x / 16)) by (apply N.Div0.div_lt_upper_bound; lia).
  rewrite (N.div_mod x 16) at 3 by lia. reflexivity.
Qed.

Lemma length_toHex (b : list N) : String.length (Buf.toHex b) = 2 * length b.
Proof.
  induction b as [|x r IH]; [reflexivity|].
  rewrite toHex_cons. cbn [String.length length]. rewrite IH. lia.
Qed.

(** ** Byte strings *)

Lemma length_ofNum (n : nat) (v : N) : length (Buf.ofNum n v) = n.
Proof. unfold Buf.ofNum. by rewrite length_map, length_seq. Qed.

Lemma length_xorBytes (x k : list N) :
  length x <= length k -> length (Buf.xorBytes x k) = length x.
Proof.
  intros H. unfold Buf.xorBytes. rewrite length_map, length_combine. lia.
Qed.

Lemma xorBytes_involutive (x k : list N) :
  length x <= length k -> Buf.xorBytes (Buf.xorBytes x k) k = x.
Proof.
  revert k. induction x as [|a x IH]; intros [|b k] H; try reflexivity.
  - cbn in H. lia.
  - cbn in H. unfold Buf.xorBytes in *. cbn.
    rewrite IH by lia.
    by rewrite N.lxor_assoc, N.lxor_nilpotent, N.lxor_0_r.
Qed.

Lemma subarray_prefix (a rest : list N) :
  Buf.subarray (a ++ rest) 0 (Z.of_nat (length a)) = a.
Proof.
  unfold Buf.subarray, Buf.clampIndex. rewrite length_app.
  replace (0 <? 0)%Z with false by reflexivity.
  destruct (Z.ltb_spec (Z.of_nat (length a)) 0); [lia|].
  rewrite Z.min_l, Z.min_l by lia.
  rewrite Z.sub_0_r, Nat2Z.id. change (Z.to_nat 0) with 0. rewrite drop_0.
  by rewrite take_app_length.
Qed.

Lemma subarray_middle (a b c : list N) :
  Buf.subarray (a ++ b ++ c) (Z.of_nat (length a))
    (Z.of_nat (length (a ++ b ++ c)) - Z.of_nat (length c)) = b.
Proof.
  unfold Buf.subarray, Buf.clampIndex. rewrite !length_app.
  destruct (Z.ltb_spec (Z.of_nat (length a)) 0); [lia|].
  destruct (Z.ltb_spec
    (Z.of_nat (length a + (length b + length c)) - Z.of_nat (length c)) 0); [lia|].
  rewrite !Z.min_l by lia.
  rewrite Nat2Z.id, drop_app_length.
  replace (Z.to_nat _) with (length b) by lia.
  by rewrite take_app_length.
Qed.

Lemma subarrayFrom_suffix (a c : list N) :
  Buf.subarrayFrom (a ++ c) (Z.of_nat (length (a ++ c)) - Z.of_nat (length c)) = c.
Proof.
  unfold Buf.subarrayFrom, Buf.subarray, Buf.clampIndex. rewrite !length_app.
  destruct (Z.ltb_spec (Z.of_nat (length a + length c) - Z.of_nat (length c)) 0); [lia|].
  destruct (Z.ltb_spec (Z.of_nat (length a + length c)) 0); [lia|].
  rewrite !Z.min_l by lia.
  replace (Z.to_nat (Z.of_nat (length a + length c) - Z.of_nat (length c)))
    with (length a) by lia.
  rewrite drop_app_length.
  apply take_ge. lia.
Qed.

(** ** Counter mode *)

Lemma length_keystream (rk : list (list N)) (icb : N) (n : nat) :
  length (Gcm.keystream rk icb n) = 16 * n.
Proof.
  unfold Gcm.keystream.
  assert (G : forall s, length (concat (map
    (fun i => Buf.ofNum 16 (Aes.encryptBlock rk (Gcm.incr i icb))) (seq s n))) = 16 * n).
  { induction n as [|n IH]; intros s; [reflexivity|].
    cbn [seq map concat]. rewrite length_app, length_ofNum, IH. lia. }
  apply G.
Qed.

Lemma gctr_fits (rk : list (list N)) (icb : N) (x : list N) :
  length x <= length (Gcm.keystream rk icb ((length x + 15) / 16)).
Proof.
  rewrite length_keystream.
  pose proof (Nat.div_mod_eq (length x + 15) 16) as E.
  pose proof (Nat.mod_upper_bound (length x + 15) 16). lia.
Qed.

Lemma length_gctr (rk : list (list N)) (icb : N) (x : list N) :
  length (Gcm.gctr rk icb x) = length x.
Proof. apply length_xorBytes, gctr_fits. Qed.

Lemma gctr_involutive (rk : list (list N)) (icb : N) (x : list N) :
  Gcm.gctr rk icb (Gcm.gctr rk icb x) = x.
Proof.
  unfold Gcm.gctr at 1. rewrite length_gctr.
  apply xorBytes_involutive, gctr_fits.
Qed.

Lemma length_tagOf rk h j ct : length (Gcm.tagOf rk h j ct) = 16.
Proof. apply length_ofNum. Qed.

Lemma decrypt_encrypt (key iv pt : list N) :
  Gcm.decrypt key iv (fst (Gcm.encrypt key iv pt)) = (pt, snd (Gcm.encrypt key iv pt)).
Proof.
  unfold Gcm.decrypt, Gcm.encrypt. cbn [fst snd].
  by rewrite gctr_involutive.
Qed.
Lemma nextBytes_lt (w : World) (s n : nat) :
  Forall (fun x => (x < 256)%N) (nextBytes w s n).
Proof.
  unfold nextBytes. apply List.Forall_forall. intros x Hx.
  apply in_map_iff in Hx as (i & <- & _). apply N.mod_lt. lia.
Qed.

Lemma length_nextBytes (w : World) (s n : nat) : length (nextBytes w s n) = n.
Proof. unfold nextBytes. by rewrite length_map, length_seq. Qed.

Lemma randomBytes_run (n : nat) (w : World) :
  Crypto.randomBytes n w = (Ok (nextBytes w 0 n), withDrawn w n).
Proof. unfold Crypto.randomBytes, nextBytes. by rewrite Nat.add_0_r. Qed.

Lemma nextBytes_withDrawn (w : World) (k s n : nat) :
  nextBytes (withDrawn w k) s n = nextBytes w (k + s) n.
Proof. unfold nextBytes, withDrawn. cbn. by rewrite Nat.add_assoc. Qed.

Lemma bind_run {A B} (c : M A) (k : A -> M B) (w w' : World) (a : A) :
  c w = (Ok a, w') -> bind c k w = k a w'.
Proof. intros H. unfold bind. by rewrite H. Qed.

(** One step of a computation whose outcome [H] is known. *)
Ltac step_with H := rewrite (bind_run _ _ _ _ _ H).
Ltac step_in G H := rewrite (bind_run _ _ _ _ _ H) in G.

Lemma checkInit_ok (key iv : list N) :
  length key = 32 -> length iv = 16 ->
  Crypto.checkInit SealService.ALGORITHM key iv = Ok tt.
Proof. intros Hk Hi. unfold Crypto.checkInit. by rewrite Hk, Hi. Qed.

Lemma encryptCV_run (pdfBytes : list N) (owner : string) (pol : option Policy) (w : World) :
  let key := nextBytes w 0 32 in
  let iv := nextBytes w 32 16 in
  let sid := "seal_" +:+ Buf.toHex (nextBytes w 48 16) in
  SealService.encryptCV pdfBytes owner pol w =
  (Ok {| SealService.ciphertext :=
           iv ++ fst (Gcm.encrypt key iv pdfBytes) ++ snd (Gcm.encrypt key iv pdfBytes);
         SealService.resultSealObjectId := sid |},
   withSealObject (withDrawn (withDrawn (withDrawn w 32) 16) 16) sid
     {| ownerAddress := owner;
        encryptionKey := Buf.toHex key;
        policy := default SealService.defaultPolicy pol;
        createdAt := now w |}).
Proof.
  intros key iv sid. unfold SealService.encryptCV.
  rewrite (bind_run _ _ _ _ _ (randomBytes_run 32 w)).
  rewrite (bind_run _ _ _ _ _ (randomBytes_run _ _)).
  rewrite nextBytes_withDrawn.
  rewrite fromHex_toHex by apply nextBytes_lt.
  unfold Crypto.createCipheriv.
  rewrite checkInit_ok by apply length_nextBytes.
  unfold lift at 1, bind at 1.
  unfold Crypto.cipherUpdate, Crypto.cipherFinal, Crypto.getAuthTag.
  cbn [Crypto.cKey Crypto.cIv Crypto.cInput app length drop].
  rewrite (bind_run _ _ _ _ _ (randomBytes_run _ _)).
  rewrite !nextBytes_withDrawn.
  unfold newDate, setSealObject, ret, bind. cbn [now withDrawn].
  rewrite app_nil_r. reflexivity.
Qed.

Lemma decipher_packed (key iv ct tag : list N) :
  length key = 32 -> length iv = 16 -> length tag = 16 ->
  Forall (fun x => (x < 256)%N) key ->
  SealService.decipher (iv ++ ct ++ tag) (Buf.toHex key) =
  if bool_decide (snd (Gcm.decrypt key iv ct) = tag)
  then Ok (fst (Gcm.decrypt key iv ct))
  else Throw "Unsupported state or unable to authenticate data".
Proof.
  intros Hk Hi Ht Hb. unfold SealService.decipher.
  replace (Z.of_nat SealService.IV_LENGTH) with (Z.of_nat (length iv))
    by (rewrite Hi; reflexivity).
  replace (Z.of_nat SealService.AUTH_TAG_LENGTH) with (Z.of_nat (length tag))
    by (rewrite Ht; reflexivity).
  rewrite subarray_prefix, subarray_middle.
  rewrite (app_assoc iv ct tag), subarrayFrom_suffix.
  rewrite fromHex_toHex by done.
  unfold Crypto.createDecipheriv. rewrite checkInit_ok by done.
  unfold Crypto.setAuthTag. rewrite Ht. cbn [Crypto.validTagLength Nat.eqb Nat.leb orb andb].
  unfold Crypto.decipherUpdate, Crypto.decipherFinal.
  cbn [Crypto.dKey Crypto.dIv Crypto.dInput Crypto.dTag app length drop].
  rewrite Ht.
  replace (take 16 (Gcm.decrypt key iv ct).2) with (Gcm.decrypt key iv ct).2.
  2:{ symmetry. apply take_ge. unfold Gcm.decrypt. cbn [snd]. by rewrite length_tagOf. }
  destruct (bool_decide _); [|reflexivity].
  by rewrite app_nil_r.
Qed.

Lemma decipher_encrypted (key iv pt : list N) :
  length key = 32 -> length iv = 16 ->
  Forall (fun x => (x < 256)%N) key ->
  SealService.decipher
    (iv ++ fst (Gcm.encrypt key iv pt) ++ snd (Gcm.encrypt key iv pt)) (Buf.toHex key)
  = Ok pt.
Proof.
  intros Hk Hi Hb.
  rewrite decipher_packed by (done || apply length_tagOf).
  rewrite decrypt_encrypt. cbn [fst snd]. by rewrite bool_decide_eq_true_2.
Qed.

(** ** Access evaluation *)

Lemma truthy_Some (s : string) : Js.truthy (Some s) = true <-> s <> "".
Proof. destruct s; cbn; split; intros; congruence. Qed.

Lemma getDecryptionKey_found (w : World) (sid : string) (so : SealObject)
  (v c : option string) :
  sealObjects w !! sid = Some so ->
  SealService.getDecryptionKey sid v c w =
  (SealService.evaluate so v c, withCall w (CallGetDecryptionKey sid v c)).
Proof.
  intros H. unfold SealService.getDecryptionKey, bind, called.
  cbn [sealObjects withCall]. by rewrite H.
Qed.

Lemma getDecryptionKey_missing (w : World) (sid : string) (v c : option string) :
  sealObjects w !! sid = None ->
  SealService.getDecryptionKey sid v c w =
  (Throw ("Seal object not found: " +:+ sid), withCall w (CallGetDecryptionKey sid v c)).
Proof.
  intros H. unfold SealService.getDecryptionKey, bind, called.
  cbn [sealObjects withCall]. by rewrite H.
Qed.

(** A presented code is compared with a stored code before anything else. *)
Lemma evaluate_code (so : SealObject) (v : option string) (c stored : string) :
  c <> "" -> stored <> "" ->
  secretAccessCode (policy so) = Some stored ->
  SealService.evaluate so v (Some c) =
  if bool_decide (c = stored) then granted so else Throw invalidCode.
Proof.
  intros Hc Hs E. unfold SealService.evaluate. rewrite E.
  apply truthy_Some in Hc, Hs. rewrite Hc, Hs. cbn [andb].
  destruct (decide (c = stored)) as [->|Hne].
  - by rewrite !bool_decide_eq_true_2.
  - rewrite !bool_decide_eq_false_2; [done|done|congruence].
Qed.

(** Without a usable code the wallet decides. *)
Lemma evaluate_wallet (so : SealObject) (v : string) (c : option string) :
  v <> "" ->
  Js.truthy c && Js.truthy (secretAccessCode (policy so)) = false ->
  SealService.evaluate so (Some v) c =
  if String.eqb (Js.toLowerCase v) (Js.toLowerCase (ownerAddress so))
     || match allowedViewers (policy so) with
        | Some vs =>
            Js.some (fun a => String.eqb (Js.toLowerCase a) (Js.toLowerCase v)) vs
        | None => false
        end
     || negb (default false (requireApproval (policy so)))
  then granted so else Throw (notAuthorized v).
Proof.
  intros Hv Hc. unfold SealService.evaluate. rewrite Hc.
  apply truthy_Some in Hv. rewrite Hv. cbn [default].
  by destruct (_ || _ || _).
Qed.

Lemma evaluate_no_credential (so : SealObject) (v c : option string) :
  Js.truthy v = false -> Js.truthy c = false ->
  SealService.evaluate so v c = Throw missingCredential.
Proof.
  intros Hv Hc. unfold SealService.evaluate. by rewrite Hv, Hc.
Qed.

Lemma some_lower_spec (v : string) (vs : list string) :
  Js.some (fun a => String.eqb (Js.toLowerCase a) (Js.toLowerCase v)) vs = true <->
  exists a, In a vs /\ sameIdentity a v.
Proof.
  unfold Js.some, sameIdentity. rewrite existsb_exists.
  split; intros (a & Ha & E); exists a; split; try done; by apply String.eqb_eq.
Qed.

(** With the policy of the routes that set [requireApproval], an [owner_only]
    object opens to the owner alone. *)
Lemma owner_only_wallet (so : SealObject) (v : string) (viewers : option (list string))
  (code : option string) :
  policy so = Routes.registerPolicy (Some owner_only) viewers code ->
  v <> "" ->
  (sameIdentity v (ownerAddress so) -> SealService.evaluate so (Some v) None = granted so) /\
  (~ sameIdentity v (ownerAddress so) ->
   SealService.evaluate so (Some v) None = Throw (notAuthorized v)).
Proof.
  intros Hp Hv. rewrite evaluate_wallet by done. rewrite Hp. cbn.
  rewrite !orb_false_r. unfold sameIdentity.
  destruct (String.eqb_spec (Js.toLowerCase v) (Js.toLowerCase (ownerAddress so)));
    split; intros; tauto || done.
Qed.

(** Outside [owner_only] the same routes leave [requireApproval] false, and
    every wallet is approved. *)
Lemma open_policy_wallet (so : SealObject) (v : string) (mode : AccessMode)
  (viewers : option (list string)) (code : option string) :
  policy so = Routes.registerPolicy (Some mode) viewers code ->
  mode <> owner_only ->
  v <> "" ->
  SealService.evaluate so (Some v) None = granted so.
Proof.
  intros Hp Hm Hv. rewrite evaluate_wallet by done. rewrite Hp.
  destruct mode; [done| |]; cbn; by rewrite orb_true_r.
Qed.

(** The routes that do not set [requireApproval] approve every wallet in
    every mode. *)
Lemma auth_policy_wallet (so : SealObject) (v : string) (mode : option AccessMode)
  (viewers : option (list string)) (code : option string) :
  policy so = Routes.registerPolicyAuth mode viewers code ->
  v <> "" ->
  SealService.evaluate so (Some v) None = granted so.
Proof.
  intros Hp Hv. rewrite evaluate_wallet by done. rewrite Hp.
  cbn. by rewrite orb_true_r.
Qed.

(** ** The steps of the handlers *)

Lemma computeCiphertextHash_run (ct : list N) (w : World) :
  SealService.computeCiphertextHash ct w =
  (Ok (Sha256.hexdigest ct), withCall w (CallComputeCiphertextHash ct)).
Proof. reflexivity. Qed.

Lemma decryptCV_run (ct : list N) (k : string) (w : World) :
  SealService.decryptCV ct k w =
  (SealService.decipher ct k, withCall w (CallDecryptCV ct k)).
Proof. reflexivity. Qed.

Lemma randomUUID_run (w : World) :
  Crypto.randomUUID w =
  (Ok (Crypto.uuidString (Crypto.uuidBytes (nextBytes w 0 16))), withDrawn w 16).
Proof.
  unfold Crypto.randomUUID. by rewrite (bind_run _ _ _ _ _ (randomBytes_run _ _)).
Qed.

Lemma uploadCVToWalrus_run (buf : list N) (name : string) (w : World) :
  exists up, Walrus.uploadCVToWalrus buf name w = (Ok up, withDrawn w 16).
Proof.
  unfold Walrus.uploadCVToWalrus.
  rewrite (bind_run _ _ _ _ _ (randomUUID_run _)). by eexists.
Qed.

Lemma createCVProof_run (ins : MemStorage.InsertCVProof) (w : World) :
  exists p,
    MemStorage.createCVProof ins w =
      (Ok p, withCVProof (withDrawn w 16) (MemStorage.insProofCode ins) p) /\
    proofCode p = MemStorage.insProofCode ins /\
    proofSecretAccessCode p = MemStorage.insSecretAccessCode ins /\
    sealObjectId p = MemStorage.insSealObjectId ins /\
    walletAddress p = MemStorage.insWalletAddress ins.
Proof.
  unfold MemStorage.createCVProof.
  rewrite (bind_run _ _ _ _ _ (randomUUID_run _)).
  eexists. split; [reflexivity|]. repeat split.
Qed.

Lemma generate_code_run (data : RegisterData) (w : World) :
  exists wc,
    (if Routes.isMode secret_code (reqAccessMode data) &&
        negb (Js.truthy (reqSecretAccessCode data))
     then b <- Crypto.randomBytes 8 ;; ret (Some (Buf.toHex b))
     else ret (reqSecretAccessCode data)) w = (Ok (registeredCode data w), wc) /\
    sealObjects wc = sealObjects w /\ cvProofs wc = cvProofs w.
Proof.
  unfold registeredCode, generatesCode. destruct (_ && _).
  - rewrite (bind_run _ _ _ _ _ (randomBytes_run _ _)). by eexists.
  - by eexists.
Qed.

(** What a successful registration leaves behind: the record it answers is
    stored under its proof code, and a seal object with the policy of the
    request is stored under the record's seal object id. *)
Lemma register_created anchor policyOf file data w p w' :
  Routes.register anchor policyOf file data w =
    (Ok {| status := 201; body := ProofJson p |}, w') ->
  proofSecretAccessCode p = Js.or_else (registeredCode data w) None /\
  walletAddress p = reqWalletAddress data /\
  cvProofs w' = <[proofCode p := p]> (cvProofs w) /\
  exists so,
    sealObjects w' = <[sealObjectId p := so]> (sealObjects w) /\
    ownerAddress so = reqWalletAddress data /\
    policy so =
      policyOf (reqAccessMode data) (reqAllowedViewers data) (registeredCode data w).
Proof.
  intros H. destruct file as [[buf name]|]; [|discriminate H].
  unfold Routes.register, try_catch in H.
  destruct (Nat.ltb _ _) eqn:Hlen; [discriminate H|].
  destruct (generate_code_run data w) as (wc & Hcode & Hso & Hpr).
  step_in H Hcode.
  step_in H (encryptCV_run buf (reqWalletAddress data)
               (Some (policyOf (reqAccessMode data) (reqAllowedViewers data)
                        (registeredCode data w))) wc).
  cbn [SealService.ciphertext SealService.resultSealObjectId] in H.
  rewrite (bind_run _ _ _ _ _ (computeCiphertextHash_run _ _)) in H.
  match type of H with context [bind (Walrus.uploadCVToWalrus ?b ?n) _ ?w0] =>
    destruct (uploadCVToWalrus_run b n w0) as (up & Hup) end.
  step_in H Hup.
  unfold lift at 1, bind at 1 in H.
  destruct (anchor _ _ _ _ _) as [[tx pc]|m]; [|discriminate H].
  match type of H with context [bind (MemStorage.createCVProof ?i) _ ?w0] =>
    destruct (createCVProof_run i w0) as (q & Hq & Hpc & Hsec & Hsid & Hwal) end.
  step_in H Hq.
  cbn in Hpc, Hsec, Hsid, Hwal.
  unfold Routes.json, ret in H. injection H as -> <-.
  rewrite Hpc, Hsec, Hsid, Hwal. cbn [cvProofs sealObjects withCVProof withDrawn withCall withSealObject].
  rewrite Hpr, Hso. repeat split.
  eexists. repeat split.
Qed.

(** A registration with a file, a wallet address of at least ten characters
    and an anchoring service that answers is answered 201 with the record. *)
Lemma register_succeeds anchor policyOf buf name data w :
  10 <= String.length (reqWalletAddress data) ->
  (forall a b c d e, exists r, anchor a b c d e = Ok r) ->
  exists p w',
    Routes.register anchor policyOf (Some (buf, name)) data w =
      (Ok {| status := 201; body := ProofJson p |}, w').
Proof.
  intros Hlen Hanchor. unfold Routes.register, try_catch.
  rewrite (proj2 (Nat.ltb_ge _ _) Hlen).
  destruct (generate_code_run data w) as (wc & Hcode & _ & _).
  step_with Hcode.
  step_with (encryptCV_run buf (reqWalletAddress data)
               (Some (policyOf (reqAccessMode data) (reqAllowedViewers data)
                        (registeredCode data w))) wc).
  cbn [SealService.ciphertext SealService.resultSealObjectId].
  rewrite (bind_run _ _ _ _ _ (computeCiphertextHash_run _ _)).
  match goal with |- context [bind (Walrus.uploadCVToWalrus ?b ?n) _ ?w0] =>
    destruct (uploadCVToWalrus_run b n w0) as (up & Hup) end.
  step_with Hup.
  match goal with |- context [anchor ?a ?b ?c ?d ?e] =>
    destruct (Hanchor a b c d e) as (r & Hr) end.
  unfold lift at 1, bind at 1. rewrite Hr.
  match goal with |- context [bind (MemStorage.createCVProof ?i) _ ?w0] =>
    destruct (createCVProof_run i w0) as (q & Hq & _) end.
  step_with Hq. unfold Routes.json, ret. by eexists _, _.
Qed.

(** * The claims of the specification *)

(** ** The round trip through the cipher *)

(** Claim C6.  Whatever the plaintext, the owner, the policy and the state of
    the server, [encryptCV] succeeds, its ciphertext is [iv || encrypted ||
    authTag] with a 16-byte IV and a 16-byte tag around as many bytes as the
    plaintext, and decrypting that ciphertext with the key stored under the
    returned seal object id gives the plaintext back. *)
Theorem decrypt_after_encrypt (pdfBytes : list N) (owner : string) (pol : option Policy)
  (w : World) :
  exists enc iv encrypted authTag so,
    fst (SealService.encryptCV pdfBytes owner pol w) = Ok enc /\
    SealService.ciphertext enc = iv ++ encrypted ++ authTag /\
    length iv = 16 /\ length authTag = 16 /\ length encrypted = length pdfBytes /\
    sealObjects (snd (SealService.encryptCV pdfBytes owner pol w))
      !! SealService.resultSealObjectId enc = Some so /\
    SealService.decipher (SealService.ciphertext enc) (encryptionKey so) = Ok pdfBytes /\
    forall w2,
      fst (SealService.decryptCV (SealService.ciphertext enc) (encryptionKey so) w2)
      = Ok pdfBytes.
Proof.
  rewrite encryptCV_run. cbn [fst snd sealObjects withSealObject].
  eexists _, (nextBytes w 32 16), _, _, _. split; [reflexivity|].
  cbn [SealService.ciphertext SealService.resultSealObjectId encryptionKey].
  assert (D : SealService.decipher
                (nextBytes w 32 16 ++
                 (Gcm.encrypt (nextBytes w 0 32) (nextBytes w 32 16) pdfBytes).1 ++
                 (Gcm.encrypt (nextBytes w 0 32) (nextBytes w 32 16) pdfBytes).2)
                (Buf.toHex (nextBytes w 0 32)) = Ok pdfBytes).
  { apply decipher_encrypted;
      [apply length_nextBytes | apply length_nextBytes | apply nextBytes_lt]. }
  split; [reflexivity|].
  split; [apply length_nextBytes|].
  split; [apply length_tagOf|].
  split; [apply length_gctr|].
  split; [apply lookup_insert_eq|].
  split; [exact D|].
  intros w2. rewrite decryptCV_run. exact D.
Qed.

(** ** The secret code before the wallet *)

(** Claim C7.  When a code is presented and the policy stores one, the code
    decides alone: the stored code grants, any other code is refused with the
    invalid-code error, whatever wallet comes with the request (the owner's
    included). *)
Theorem code_checked_before_wallet (w : World) (sid : string) (so : SealObject)
  (v : option string) (c stored : string) :
  sealObjects w !! sid = Some so ->
  secretAccessCode (policy so) = Some stored ->
  stored <> "" -> c <> "" ->
  (c = stored -> fst (SealService.getDecryptionKey sid v (Some c) w) = granted so) /\
  (c <> stored ->
   fst (SealService.getDecryptionKey sid v (Some c) w) = Throw invalidCode).
Proof.
  intros Hso Hst Hs Hc. rewrite (getDecryptionKey_found _ _ _ _ _ Hso). cbn [fst].
  rewrite (evaluate_code so v c stored Hc Hs Hst).
  split; intros E.
  - by rewrite bool_decide_eq_true_2.
  - by rewrite bool_decide_eq_false_2.
Qed.

(** Claim C7 on the registration of the scenario: the owner's wallet alone is
    granted, and the same wallet with the code in upper case is refused. *)
Lemma code_checked_before_wallet_witness :
  let w := Scenario.registered secret_code None in
  let so := Scenario.sealObjectAt w Scenario.sealIdCode in
  fst (SealService.getDecryptionKey Scenario.sealIdCode (Some Scenario.owner) None w)
    = granted so /\
  (Scenario.code0Upper = Scenario.code0 ->
   fst (SealService.getDecryptionKey Scenario.sealIdCode (Some Scenario.owner)
          (Some Scenario.code0Upper) w) = granted so) /\
  (Scenario.code0Upper <> Scenario.code0 ->
   fst (SealService.getDecryptionKey Scenario.sealIdCode (Some Scenario.owner)
          (Some Scenario.code0Upper) w) = Throw invalidCode).
Proof.
  split; [vm_compute; reflexivity|].
  apply (code_checked_before_wallet (Scenario.registered secret_code None)
           Scenario.sealIdCode
           (Scenario.sealObjectAt (Scenario.registered secret_code None) Scenario.sealIdCode)
           (Some Scenario.owner) Scenario.code0Upper Scenario.code0).
  - vm_compute; reflexivity.
  - vm_compute; reflexivity.
  - discriminate.
  - discriminate.
Defined.

(** ** No credential *)

(** Claim C8, as amended.  A request with neither a wallet nor a code fails
    with the message [missingCredential]; that message is classified by the
    route as an access denial (status 403), like a wrong code and like a
    refused wallet: the code has no error kind of its own for it. *)
Theorem no_credential_is_access_denied (w : World) (sid : string) (so : SealObject)
  (v c : option string) :
  sealObjects w !! sid = Some so ->
  Js.truthy v = false -> Js.truthy c = false ->
  fst (SealService.getDecryptionKey sid v c w) = Throw missingCredential /\
  Routes.errorStatus missingCredential = 403%N /\
  Routes.errorStatus missingCredential = Routes.errorStatus invalidCode /\
  forall viewer,
    Routes.errorStatus missingCredential = Routes.errorStatus (notAuthorized viewer).
Proof.
  intros Hso Hv Hc. rewrite (getDecryptionKey_found _ _ _ _ _ Hso). cbn [fst].
  rewrite evaluate_no_credential by done.
  repeat split.
Qed.

(** Claim C8 as amended, on the registration of the scenario (an empty code
    counts as none). *)
Lemma no_credential_is_access_denied_witness :
  let w := Scenario.registered owner_only None in
  fst (SealService.getDecryptionKey Scenario.sealId0 None (Some "") w)
    = Throw missingCredential /\
  Routes.errorStatus missingCredential = 403%N /\
  Routes.errorStatus missingCredential = Routes.errorStatus invalidCode /\
  forall viewer,
    Routes.errorStatus missingCredential = Routes.errorStatus (notAuthorized viewer).
Proof.
  apply (no_credential_is_access_denied (Scenario.registered owner_only None)
           Scenario.sealId0
           (Scenario.sealObjectAt (Scenario.registered owner_only None) Scenario.sealId0)
           None (Some "")).
  - vm_compute; reflexivity.
  - reflexivity.
  - reflexivity.
Defined.

(** Claim C8 as stated fails: the error of a request without credentials and
    the error of a refused wallet are both [Error]s whose message contains
    [Access denied], and the route gives them the same status. *)
Lemma missing_credential_not_a_kind_of_its_own :
  let w := Scenario.registered owner_only None in
  fst (SealService.getDecryptionKey Scenario.sealId0 None None w)
    = Throw missingCredential /\
  fst (SealService.getDecryptionKey Scenario.sealId0 (Some Scenario.stranger) None w)
    = Throw (notAuthorized Scenario.stranger) /\
  Routes.errorStatus missingCredential
    = Routes.errorStatus (notAuthorized Scenario.stranger) /\
  Js.includes missingCredential "Access denied" = true.
Proof. vm_compute. repeat split. Qed.

(** ** The proof record and the secret access code *)

(** The lookup by proof code answers the stored record as it is. *)
Lemma getProof_run (code : string) (w : World) :
  Routes.getProof code w =
  (Ok match cvProofs w !! code with
      | Some p => {| status := 200; body := ProofJson p |}
      | None => {| status := 404; body := Message "Proof not found" |}
      end, w).
Proof.
  unfold Routes.getProof, try_catch, bind, MemStorage.getCVProofByCode.
  by destruct (cvProofs w !! code).
Qed.

Lemma registeredCode_secret_mode (data : RegisterData) (w : World) :
  reqAccessMode data = Some secret_code ->
  exists code, registeredCode data w = Some code /\ code <> "" /\
    (Js.truthy (reqSecretAccessCode data) = false ->
     code = Buf.toHex (nextBytes w 0 8) /\ String.length code = 16).
Proof.
  intros Hm. unfold registeredCode, generatesCode. rewrite Hm. cbn [Routes.isMode andb].
  destruct (Js.truthy (reqSecretAccessCode data)) eqn:Ht; cbn [negb].
  - destruct (reqSecretAccessCode data) as [code|]; [|discriminate Ht].
    exists code. split; [done|]. split; [by apply truthy_Some|]. discriminate.
  - eexists. split; [reflexivity|].
    assert (L : String.length (Buf.toHex (nextBytes w 0 8)) = 16)
      by (by rewrite length_toHex, length_nextBytes).
    split; [|done]. intros E. rewrite E in L. discriminate L.
Qed.

(** Claim C3, as amended.  After a successful registration in [secret_code]
    mode the response carries the secret access code (16 characters when the
    server generated it), and the lookup by proof code answers the same
    record, code included. *)
Theorem secret_code_is_returned_by_lookup anchor policyOf file data w p w' :
  reqAccessMode data = Some secret_code ->
  Routes.register anchor policyOf file data w =
    (Ok {| status := 201; body := ProofJson p |}, w') ->
  exists code,
    code <> "" /\
    (Js.truthy (reqSecretAccessCode data) = false -> String.length code = 16) /\
    disclosedCode (fst (Routes.register anchor policyOf file data w)) = Some code /\
    Routes.getProof (proofCode p) w' = (Ok {| status := 200; body := ProofJson p |}, w') /\
    disclosedCode (fst (Routes.getProof (proofCode p) w')) = Some code.
Proof.
  intros Hm H.
  destruct (register_created _ _ _ _ _ _ _ H) as (Hsec & _ & Hst & _).
  destruct (registeredCode_secret_mode data w Hm) as (code & Hc & Hne & Hgen).
  rewrite Hc in Hsec. unfold Js.or_else in Hsec.
  rewrite (proj2 (truthy_Some code) Hne) in Hsec.
  exists code. split; [done|]. split; [intros Hs; by apply Hgen|].
  rewrite H. cbn [fst disclosedCode body]. split; [done|].
  rewrite getProof_run, Hst, lookup_insert_eq. by cbn.
Qed.

(** Claim C3 as amended, on the registration of the scenario. *)
Lemma secret_code_is_returned_by_lookup_witness :
  let w := Scenario.world0 in
  let w' := Scenario.registered secret_code None in
  let p := Scenario.proofAt w' Scenario.proofCode0 in
  exists code,
    code <> "" /\
    (Js.truthy None = false -> String.length code = 16) /\
    disclosedCode (fst (Routes.register Scenario.anchor Routes.registerPolicy
                          (Some (Scenario.pdf, "cv.pdf"))
                          (Scenario.request secret_code None) w)) = Some code /\
    Routes.getProof (proofCode p) w' = (Ok {| status := 200; body := ProofJson p |}, w') /\
    disclosedCode (fst (Routes.getProof (proofCode p) w')) = Some code.
Proof.
  apply (secret_code_is_returned_by_lookup Scenario.anchor Routes.registerPolicy
           (Some (Scenario.pdf, "cv.pdf")) (Scenario.request secret_code None)
           Scenario.world0
           (Scenario.proofAt (Scenario.registered secret_code None) Scenario.proofCode0)
           (Scenario.registered secret_code None)).
  - reflexivity.
  - vm_compute; reflexivity.
Defined.

(** Claim C3 as stated fails: the code generated at registration, the one the
    seal object checks, is answered again by the lookup by proof code. *)
Lemma lookup_discloses_generated_code :
  let w' := Scenario.registered secret_code None in
  disclosedCode (fst (Routes.register Scenario.anchor Routes.registerPolicy
                        (Some (Scenario.pdf, "cv.pdf"))
                        (Scenario.request secret_code None) Scenario.world0))
    = Some Scenario.code0 /\
  secretAccessCode (policy (Scenario.sealObjectAt w' Scenario.sealIdCode))
    = Some Scenario.code0 /\
  disclosedCode (fst (Routes.getProof Scenario.proofCode0 w')) = Some Scenario.code0.
Proof. vm_compute. repeat split. Qed.

(** ** The blob store of the mock *)

(** Claim C10.  [retrieveFromWalrus] answers [null] for every content id, so
    for every registered proof and every credential the decrypted route
    answers 404 [Encrypted CV not found]; the only call it makes is the
    retrieval: no access evaluation, no hash, no decryption. *)
Theorem decrypted_never_finds_the_blob (w : World) (code : string)
  (v c : option string) (p : CVProof) :
  cvProofs w !! code = Some p ->
  (forall cid w0, Walrus.retrieveFromWalrus cid w0
                  = (Ok None, withCall w0 (CallRetrieveFromWalrus cid))) /\
  Routes.decrypted code v c w =
    (Ok blobNotFound, withCall w (CallRetrieveFromWalrus (contentId p))) /\
  calls (snd (Routes.decrypted code v c w)) =
    calls w ++ [CallRetrieveFromWalrus (contentId p)].
Proof.
  intros Hp. split; [reflexivity|].
  assert (E : Routes.decrypted code v c w =
    (Ok blobNotFound, withCall w (CallRetrieveFromWalrus (contentId p)))).
  { unfold Routes.decrypted, Routes.decryptedWith, try_catch, bind,
      MemStorage.getCVProofByCode. by rewrite Hp. }
  by rewrite E.
Qed.

(** Claim C10 on the registration of the scenario, with the owner's wallet. *)
Lemma decrypted_never_finds_the_blob_witness :
  let w := Scenario.registered owner_only None in
  let p := Scenario.proofAt w Scenario.proofCode0 in
  (forall cid w0, Walrus.retrieveFromWalrus cid w0
                  = (Ok None, withCall w0 (CallRetrieveFromWalrus cid))) /\
  Routes.decrypted Scenario.proofCode0 (Some Scenario.owner) None w =
    (Ok blobNotFound, withCall w (CallRetrieveFromWalrus (contentId p))) /\
  calls (snd (Routes.decrypted Scenario.proofCode0 (Some Scenario.owner) None w)) =
    calls w ++ [CallRetrieveFromWalrus (contentId p)].
Proof.
  apply (decrypted_never_finds_the_blob (Scenario.registered owner_only None)
           Scenario.proofCode0 (Some Scenario.owner) None
           (Scenario.proofAt (Scenario.registered owner_only None) Scenario.proofCode0)).
  vm_compute; reflexivity.
Defined.

(** ** The integrity check *)

Lemma decryptCalls_withCall (w : World) (c : Call) :
  isDecryptCall c = false -> decryptCalls (withCall w c) = decryptCalls w.
Proof.
  intros H. unfold decryptCalls, withCall. cbn [calls].
  rewrite filter_app. cbn [filter]. unfold filter at 2. cbn. rewrite H. cbn.
  by rewrite app_nil_r.
Qed.

(** Claim C5.  Over any blob store: when the hash of the fetched ciphertext
    differs from the stored [ciphertextHash], the route never calls
    [decryptCV]; and the request the access evaluation has let through to the
    integrity check fails there, with the integrity failure (status 400),
    after exactly three calls: retrieval, access evaluation, hash. *)
Theorem mismatch_stops_before_decryption (store : string -> option (list N))
  (w : World) (code : string) (v c : option string) (p : CVProof) (buf : list N) :
  cvProofs w !! code = Some p ->
  store (contentId p) = Some buf ->
  Sha256.hexdigest buf <> ciphertextHash p ->
  let run := Routes.decryptedWith (Walrus.retrieveFromStore store) code v c w in
  decryptCalls (snd run) = decryptCalls w /\
  (forall so,
     sealObjects w !! sealObjectId p = Some so ->
     SealService.evaluate so v c = granted so ->
     fst run = Ok integrityFailure /\
     calls (snd run) =
       calls w ++ [CallRetrieveFromWalrus (contentId p);
                   CallGetDecryptionKey (sealObjectId p) v c;
                   CallComputeCiphertextHash buf]).
Proof.
  intros Hp Hs Hh run. subst run.
  unfold Routes.decryptedWith, try_catch.
  rewrite (bind_run _ _ w w (Some p)) by (unfold MemStorage.getCVProofByCode; by rewrite Hp).
  rewrite (bind_run _ _ w (withCall w (CallRetrieveFromWalrus (contentId p))) (Some buf))
    by (unfold Walrus.retrieveFromStore, bind, called, ret; by rewrite Hs).
  set (w1 := withCall w (CallRetrieveFromWalrus (contentId p))).
  assert (Hso1 : sealObjects w1 = sealObjects w) by reflexivity.
  destruct (sealObjects w !! sealObjectId p) as [so|] eqn:Hso.
  - rewrite <- Hso1 in Hso.
    pose proof (getDecryptionKey_found w1 _ so v c Hso) as Hk.
    destruct (SealService.evaluate so v c) as [key|m] eqn:He.
    + rewrite (bind_run _ _ _ _ _ Hk).
      rewrite (bind_run _ _ _ _ _ (computeCiphertextHash_run _ _)).
      rewrite (proj2 (String.eqb_neq _ _) Hh). cbn [negb].
      unfold Routes.json, ret. cbn [fst snd].
      split.
      * unfold w1. rewrite !decryptCalls_withCall by reflexivity. done.
      * intros so' E G. split; [reflexivity|].
        cbn [calls withCall w1]. by rewrite <- !app_assoc.
    + unfold bind at 1. rewrite Hk. unfold Routes.decryptError, Routes.json, ret.
      cbn [fst snd]. split.
      * unfold w1. rewrite !decryptCalls_withCall by reflexivity. done.
      * intros so' E G. injection E as <-. rewrite He in G. discriminate G.
  - pose proof (getDecryptionKey_missing w1 (sealObjectId p) v c Hso) as Hk.
    unfold bind at 1. rewrite Hk. unfold Routes.decryptError, Routes.json, ret.
    cbn [fst snd]. split.
    + unfold w1. rewrite !decryptCalls_withCall by reflexivity. done.
    + intros so' E. discriminate E.
Qed.

(** Claim C5 on the registration of the scenario: the owner asks for a blob
    that was replaced. *)
Lemma mismatch_stops_before_decryption_witness :
  let w := Scenario.registered owner_only None in
  let p := Scenario.proofAt w Scenario.proofCode0 in
  let run := Routes.decryptedWith
               (Walrus.retrieveFromStore (Scenario.storeOf Scenario.tampered))
               Scenario.proofCode0 (Some Scenario.owner) None w in
  decryptCalls (snd run) = decryptCalls w /\
  (forall so,
     sealObjects w !! sealObjectId p = Some so ->
     SealService.evaluate so (Some Scenario.owner) None = granted so ->
     fst run = Ok integrityFailure /\
     calls (snd run) =
       calls w ++ [CallRetrieveFromWalrus (contentId p);
                   CallGetDecryptionKey (sealObjectId p) (Some Scenario.owner) None;
                   CallComputeCiphertextHash Scenario.tampered]).
Proof.
  apply (mismatch_stops_before_decryption (Scenario.storeOf Scenario.tampered)
           (Scenario.registered owner_only None) Scenario.proofCode0
           (Some Scenario.owner) None
           (Scenario.proofAt (Scenario.registered owner_only None) Scenario.proofCode0)
           Scenario.tampered).
  - vm_compute; reflexivity.
  - reflexivity.
  - apply String.eqb_neq. vm_compute; reflexivity.
Defined.

(** ** The anchor update *)

(** Claim C9.  The update-tx route, given a proof code and a transaction id,
    answers 404 and changes nothing when no record is stored under the code;
    otherwise it stores and answers the record with the new [txHash] and every
    other field as it was, and leaves all other records and the seal objects
    unchanged. *)
Theorem updateTx_replaces_txHash_only (w : World) (code tx : string) :
  code <> "" -> tx <> "" ->
  let run := Routes.updateTx (Some code) (Some tx) w in
  (cvProofs w !! code = None ->
   run = (Ok {| status := 404; body := Message "Failed to update proof" |}, w)) /\
  (forall p, cvProofs w !! code = Some p ->
     exists q,
       fst run = Ok {| status := 200; body := ProofJson q |} /\
       cvProofs (snd run) !! code = Some q /\
       txHash q = tx /\
       id q = id p /\ walletAddress q = walletAddress p /\ fileHash q = fileHash p /\
       sealObjectId q = sealObjectId p /\ ciphertextHash q = ciphertextHash p /\
       contentId q = contentId p /\ storageUrl q = storageUrl p /\
       proofCode q = proofCode p /\
       proofSecretAccessCode q = proofSecretAccessCode p /\
       proofAllowedViewers q = proofAllowedViewers p /\
       proofCreatedAt q = proofCreatedAt p) /\
  (forall other, other <> code -> cvProofs (snd run) !! other = cvProofs w !! other) /\
  sealObjects (snd run) = sealObjects w /\
  calls (snd run) = calls w /\ drawn (snd run) = drawn w.
Proof.
  intros Hc Ht run. subst run.
  unfold Routes.updateTx, try_catch.
  rewrite (proj2 (truthy_Some code) Hc), (proj2 (truthy_Some tx) Ht).
  cbn [negb orb].
  change (default "" (Some code)) with code.
  change (default "" (Some tx)) with tx.
  unfold bind, MemStorage.updateCVProofTxHash.
  destruct (cvProofs w !! code) as [p|] eqn:Hp.
  - unfold Routes.json, ret. cbn [fst snd cvProofs sealObjects calls drawn withCVProof].
    split; [discriminate|]. split.
    + intros p' E. injection E as <-. eexists. split; [reflexivity|].
      split; [apply lookup_insert_eq|]. repeat split.
    + split; [|done]. intros other Ho. by rewrite lookup_insert_ne.
  - unfold Routes.json, ret. cbn [fst snd].
    split; [done|]. split; [discriminate|]. done.
Qed.

(** Claim C9 on the registration of the scenario. *)
Lemma updateTx_replaces_txHash_only_witness :
  let w := Scenario.registered owner_only None in
  let code := Scenario.proofCode0 in
  let tx := "0xconfirmed"%string in
  let run := Routes.updateTx (Some code) (Some tx) w in
  (cvProofs w !! code = None ->
   run = (Ok {| status := 404; body := Message "Failed to update proof" |}, w)) /\
  (forall p, cvProofs w !! code = Some p ->
     exists q,
       fst run = Ok {| status := 200; body := ProofJson q |} /\
       cvProofs (snd run) !! code = Some q /\
       txHash q = tx /\
       id q = id p /\ walletAddress q = walletAddress p /\ fileHash q = fileHash p /\
       sealObjectId q = sealObjectId p /\ ciphertextHash q = ciphertextHash p /\
       contentId q = contentId p /\ storageUrl q = storageUrl p /\
       proofCode q = proofCode p /\
       proofSecretAccessCode q = proofSecretAccessCode p /\
       proofAllowedViewers q = proofAllowedViewers p /\
       proofCreatedAt q = proofCreatedAt p) /\
  (forall other, other <> code -> cvProofs (snd run) !! other = cvProofs w !! other) /\
  sealObjects (snd run) = sealObjects w /\
  calls (snd run) = calls w /\ drawn (snd run) = drawn w.
Proof.
  apply (updateTx_replaces_txHash_only (Scenario.registered owner_only None)
           Scenario.proofCode0 "0xconfirmed"); discriminate.
Defined.

(** ** The three modes at the wallet check *)

(** Claim C1 fails on the code.  After a registration in [specific_wallets]
    mode with one allowed viewer, a wallet that is neither the owner nor the
    viewer is granted the key: the route leaves [requireApproval] false in
    this mode. *)
Theorem specific_wallets_grants_unlisted_wallet :
  let w := Scenario.registered specific_wallets (Some [Scenario.viewer]) in
  let so := Scenario.sealObjectAt w Scenario.sealId0 in
  sealObjects w !! Scenario.sealId0 = Some so /\
  ownerAddress so = Scenario.owner /\
  policy so = Routes.registerPolicy (Some specific_wallets) (Some [Scenario.viewer]) None /\
  allowedViewers (policy so) = Some [Scenario.viewer] /\
  ~ sameIdentity Scenario.stranger Scenario.owner /\
  ~ sameIdentity Scenario.stranger Scenario.viewer /\
  fst (SealService.getDecryptionKey Scenario.sealId0 (Some Scenario.stranger) None w)
    = granted so.
Proof.
  vm_compute. repeat split; discriminate.
Qed.

(** Claim C2, as amended.  For a seal object with the [secret_code] policy of
    the route and stored code [stored]: a presented code is granted exactly
    when it is [stored], whatever the wallet; without a code the owner's
    wallet is granted; without a code and a wallet the request is refused. *)
Theorem secret_code_grants_code_or_owner (w : World) (sid : string) (so : SealObject)
  (stored : string) (viewers : option (list string)) :
  sealObjects w !! sid = Some so ->
  policy so = Routes.registerPolicy (Some secret_code) viewers (Some stored) ->
  stored <> "" ->
  (forall v c, c <> "" ->
     (c = stored -> fst (SealService.getDecryptionKey sid v (Some c) w) = granted so) /\
     (c <> stored ->
      fst (SealService.getDecryptionKey sid v (Some c) w) = Throw invalidCode)) /\
  (forall v, v <> "" -> sameIdentity v (ownerAddress so) ->
     fst (SealService.getDecryptionKey sid (Some v) None w) = granted so) /\
  fst (SealService.getDecryptionKey sid None None w) = Throw missingCredential.
Proof.
  intros Hso Hp Hs.
  assert (Hst : secretAccessCode (policy so) = Some stored) by (by rewrite Hp).
  split; [|split].
  - intros v c Hc. rewrite (getDecryptionKey_found _ _ _ _ _ Hso). cbn [fst].
    rewrite (evaluate_code so v c stored Hc Hs Hst).
    split; intros E.
    + by rewrite bool_decide_eq_true_2.
    + by rewrite bool_decide_eq_false_2.
  - intros v Hv Hid. rewrite (getDecryptionKey_found _ _ _ _ _ Hso). cbn [fst].
    rewrite evaluate_wallet by done.
    unfold sameIdentity in Hid. by rewrite (proj2 (String.eqb_eq _ _) Hid).
  - rewrite (getDecryptionKey_found _ _ _ _ _ Hso). cbn [fst].
    by apply evaluate_no_credential.
Qed.

(** Claim C2 as amended, on the registration of the scenario. *)
Lemma secret_code_grants_code_or_owner_witness :
  let w := Scenario.registered secret_code None in
  let sid := Scenario.sealIdCode in
  let so := Scenario.sealObjectAt w sid in
  let stored := Scenario.code0 in
  (forall v c, c <> "" ->
     (c = stored -> fst (SealService.getDecryptionKey sid v (Some c) w) = granted so) /\
     (c <> stored ->
      fst (SealService.getDecryptionKey sid v (Some c) w) = Throw invalidCode)) /\
  (forall v, v <> "" -> sameIdentity v (ownerAddress so) ->
     fst (SealService.getDecryptionKey sid (Some v) None w) = granted so) /\
  fst (SealService.getDecryptionKey sid None None w) = Throw missingCredential.
Proof.
  apply (secret_code_grants_code_or_owner (Scenario.registered secret_code None)
           Scenario.sealIdCode
           (Scenario.sealObjectAt (Scenario.registered secret_code None) Scenario.sealIdCode)
           Scenario.code0 None).
  - vm_compute; reflexivity.
  - vm_compute; reflexivity.
  - discriminate.
Defined.

(** Claim C2 as stated fails: in [secret_code] mode the owner's wallet is
    granted without any code. *)
Lemma secret_code_owner_wallet_needs_no_code :
  let w := Scenario.registered secret_code None in
  let so := Scenario.sealObjectAt w Scenario.sealIdCode in
  sealObjects w !! Scenario.sealIdCode = Some so /\
  secretAccessCode (policy so) = Some Scenario.code0 /\
  fst (SealService.getDecryptionKey Scenario.sealIdCode (Some Scenario.owner) None w)
    = granted so.
Proof. vm_compute. repeat split. Qed.

(** The near misses of the generated code: upper case and a trailing space
    are refused, the code itself is granted. *)
Lemma secret_code_near_misses_denied :
  let w := Scenario.registered secret_code None in
  let so := Scenario.sealObjectAt w Scenario.sealIdCode in
  fst (SealService.getDecryptionKey Scenario.sealIdCode None (Some Scenario.code0) w)
    = granted so /\
  fst (SealService.getDecryptionKey Scenario.sealIdCode None
         (Some Scenario.code0Upper) w) = Throw invalidCode /\
  fst (SealService.getDecryptionKey Scenario.sealIdCode (Some Scenario.owner)
         (Some (Scenario.code0 +:+ " ")) w) = Throw invalidCode.
Proof. vm_compute. repeat split. Qed.

(** The same defect as in [specific_wallets] mode: a stranger's wallet is
    granted without a code too. *)
Lemma secret_code_grants_any_wallet :
  let w := Scenario.registered secret_code None in
  let so := Scenario.sealObjectAt w Scenario.sealIdCode in
  ~ sameIdentity Scenario.stranger Scenario.owner /\
  fst (SealService.getDecryptionKey Scenario.sealIdCode (Some Scenario.stranger) None w)
    = granted so.
Proof. vm_compute. split; [discriminate|reflexivity]. Qed.

(** Claim C4 fails on the code.  After a registration in [owner_only] mode
    through the routes that do not set [requireApproval], a wallet that is not
    the owner's is granted the key. *)
Theorem owner_only_without_requireApproval_grants_any_wallet :
  let w := Scenario.registeredAuth owner_only None in
  let so := Scenario.sealObjectAt w Scenario.sealId0 in
  sealObjects w !! Scenario.sealId0 = Some so /\
  ownerAddress so = Scenario.owner /\
  policy so = Routes.registerPolicyAuth (Some owner_only) None None /\
  accessMode (policy so) = Some owner_only /\
  requireApproval (policy so) = None /\
  ~ sameIdentity Scenario.stranger Scenario.owner /\
  fst (SealService.getDecryptionKey Scenario.sealId0 (Some Scenario.stranger) None w)
    = granted so.
Proof.
  vm_compute. repeat split; discriminate.
Qed.

(** With the routes that set [requireApproval], the same registration opens
    to the owner alone. *)
Lemma owner_only_with_requireApproval :
  let w := Scenario.registered owner_only None in
  let so := Scenario.sealObjectAt w Scenario.sealId0 in
  fst (SealService.getDecryptionKey Scenario.sealId0 (Some Scenario.stranger) None w)
    = Throw (notAuthorized Scenario.stranger) /\
  fst (SealService.getDecryptionKey Scenario.sealId0 (Some "0xabc0000001") None w)
    = granted so.
Proof. vm_compute. repeat split. Qed.

(** Every seal object a successful [owner_only] registration creates through
    those routes opens to a wallet exactly when it is the owner's. *)
Lemma owner_only_registration anchor file data w p w' (v : string) :
  reqAccessMode data = Some owner_only ->
  Routes.register anchor Routes.registerPolicy file data w =
    (Ok {| status := 201; body := ProofJson p |}, w') ->
  v <> "" ->
  exists so,
    sealObjects w' !! sealObjectId p = Some so /\
    ownerAddress so = walletAddress p /\
    (sameIdentity v (walletAddress p) ->
     fst (SealService.getDecryptionKey (sealObjectId p) (Some v) None w') = granted so) /\
    (~ sameIdentity v (walletAddress p) ->
     fst (SealService.getDecryptionKey (sealObjectId p) (Some v) None w')
       = Throw (notAuthorized v)).
Proof.
  intros Hm H Hv.
  destruct (register_created _ _ _ _ _ _ _ H) as (_ & Hw & _ & so & Hso & Ho & Hp).
  assert (L : sealObjects w' !! sealObjectId p = Some so)
    by (rewrite Hso; apply lookup_insert_eq).
  exists so. split; [done|]. split; [congruence|].
  rewrite Hm in Hp.
  destruct (owner_only_wallet so v _ _ Hp Hv) as [G D].
  rewrite (getDecryptionKey_found _ _ _ _ _ L). cbn [fst].
  rewrite Hw, <- Ho. by split.
Qed.

(** * Further properties of the seal layer *)

(** Property X1.  Through the routes that set [requireApproval], the seal
    object of a successful registration whose [accessMode] field is
    [owner_only] opens to a (non-empty) wallet identity if and only if it is
    the owner's, compared without case; any other wallet is refused.  Both
    identities are ASCII, where the model's [toLowerCase] is JavaScript's. *)
Theorem owner_only_opens_to_owner_alone anchor file data w p w' (v : string) :
  reqAccessMode data = Some owner_only ->
  Routes.register anchor Routes.registerPolicy file data w =
    (Ok {| status := 201; body := ProofJson p |}, w') ->
  v <> "" ->
  Js.isAscii v = true -> Js.isAscii (reqWalletAddress data) = true ->
  exists so,
    sealObjects w' !! sealObjectId p = Some so /\
    (fst (SealService.getDecryptionKey (sealObjectId p) (Some v) None w') = granted so
     <-> sameIdentity v (walletAddress p)) /\
    (~ sameIdentity v (walletAddress p) ->
     fst (SealService.getDecryptionKey (sealObjectId p) (Some v) None w')
       = Throw (notAuthorized v)).
Proof.
  intros Hm H Hv _ _.
  destruct (owner_only_registration anchor file data w p w' v Hm H Hv)
    as (so & L & _ & G & D).
  exists so. split; [done|]. split; [|done].
  split; [|done]. intros E.
  destruct (String.eqb_spec (Js.toLowerCase v) (Js.toLowerCase (walletAddress p)))
    as [Heq|Hne]; [done|].
  rewrite (D Hne) in E. discriminate E.
Qed.

Lemma owner_only_opens_to_owner_alone_witness :
  let w' := Scenario.registered owner_only None in
  let p := Scenario.proofAt w' Scenario.proofCode0 in
  let v := "0xabc0000001"%string in
  exists so,
    sealObjects w' !! sealObjectId p = Some so /\
    (fst (SealService.getDecryptionKey (sealObjectId p) (Some v) None w') = granted so
     <-> sameIdentity v (walletAddress p)) /\
    (~ sameIdentity v (walletAddress p) ->
     fst (SealService.getDecryptionKey (sealObjectId p) (Some v) None w')
       = Throw (notAuthorized v)).
Proof.
  apply (owner_only_opens_to_owner_alone Scenario.anchor (Some (Scenario.pdf, "cv.pdf"))
           (Scenario.request owner_only None) Scenario.world0
           (Scenario.proofAt (Scenario.registered owner_only None) Scenario.proofCode0)
           (Scenario.registered owner_only None) "0xabc0000001").
  - reflexivity.
  - vm_compute; reflexivity.
  - discriminate.
  - reflexivity.
  - reflexivity.
Defined.

(** Property X19.  A registration that names no access mode, which the
    route logs as [owner_only], is not stored as one: [requireApproval] is
    [accessMode === "owner_only"], false for an absent mode, and the viewer
    list is empty.  The seal object then opens to every non-empty wallet
    identity presented without a code. *)
Theorem registration_without_mode_opens_to_every_wallet anchor file data w p w'
  (v : string) :
  reqAccessMode data = None ->
  Routes.register anchor Routes.registerPolicy file data w =
    (Ok {| status := 201; body := ProofJson p |}, w') ->
  v <> "" ->
  exists so,
    sealObjects w' !! sealObjectId p = Some so /\
    ownerAddress so = reqWalletAddress data /\
    requireApproval (policy so) = Some false /\
    allowedViewers (policy so) = Some [] /\
    fst (SealService.getDecryptionKey (sealObjectId p) (Some v) None w') = granted so.
Proof.
  intros Hm H Hv.
  destruct (register_created _ _ _ _ _ _ _ H) as (_ & _ & _ & so & Hso & Ho & Hp).
  assert (L : sealObjects w' !! sealObjectId p = Some so)
    by (rewrite Hso; apply lookup_insert_eq).
  rewrite Hm in Hp.
  exists so. split; [done|]. split; [done|].
  split; [by rewrite Hp|]. split; [by rewrite Hp|].
  rewrite (getDecryptionKey_found _ _ _ _ _ L). cbn [fst].
  rewrite evaluate_wallet by done. rewrite Hp.
  cbn. by rewrite orb_true_r.
Qed.

Lemma registration_without_mode_opens_to_every_wallet_witness :
  let w' := Example.registeredNoMode in
  let p := Scenario.proofAt w' Scenario.proofCode0 in
  exists so,
    sealObjects w' !! sealObjectId p = Some so /\
    ownerAddress so = reqWalletAddress Example.requestNoMode /\
    requireApproval (policy so) = Some false /\
    allowedViewers (policy so) = Some [] /\
    fst (SealService.getDecryptionKey (sealObjectId p) (Some Scenario.stranger) None w')
      = granted so.
Proof.
  apply (registration_without_mode_opens_to_every_wallet Scenario.anchor
           (Some (Scenario.pdf, "cv.pdf")) Example.requestNoMode Scenario.world0
           (Scenario.proofAt Example.registeredNoMode Scenario.proofCode0)
           Example.registeredNoMode Scenario.stranger).
  - reflexivity.
  - vm_compute; reflexivity.
  - discriminate.
Defined.

(** Property X2.  The hexadecimal form in which the key is stored loses
    nothing: [Buffer.from(buf.toString('hex'), 'hex')] is [buf]. *)
Theorem hex_key_round_trip (b : list N) :
  Forall (fun x => (x < 256)%N) b ->
  Buf.fromHex (Buf.toHex b) = b /\ String.length (Buf.toHex b) = 2 * length b.
Proof. intros H. split; [by apply fromHex_toHex | apply length_toHex]. Qed.

Lemma hex_key_round_trip_witness :
  Buf.fromHex (Buf.toHex [0; 171; 255]%N) = [0; 171; 255]%N /\
  String.length (Buf.toHex [0; 171; 255]%N) = 2 * length [0; 171; 255]%N.
Proof.
  apply (hex_key_round_trip [0; 171; 255]%N).
  repeat constructor.
Defined.

(** Property X3.  [decryptCV] authenticates: on a buffer [iv || encrypted ||
    tag] whose 16-byte tag is not the tag of [encrypted] under the key and the
    IV, it throws and returns no plaintext. *)
Theorem decryptCV_rejects_wrong_tag (key iv ct tag : list N) (w : World) :
  length key = 32 -> length iv = 16 -> length tag = 16 ->
  Forall (fun x => (x < 256)%N) key ->
  tag <> snd (Gcm.decrypt key iv ct) ->
  fst (SealService.decryptCV (iv ++ ct ++ tag) (Buf.toHex key) w) =
  Throw "Unsupported state or unable to authenticate data".
Proof.
  intros Hk Hi Ht Hb Hne. rewrite decryptCV_run. cbn [fst].
  rewrite decipher_packed by done.
  rewrite bool_decide_eq_false_2; [done|congruence].
Qed.

Lemma decryptCV_rejects_wrong_tag_witness :
  fst (SealService.decryptCV
         (repeat 1%N 16 ++ [] ++ repeat 0%N 16) (Buf.toHex (repeat 2%N 32))
         Scenario.world0) =
  Throw "Unsupported state or unable to authenticate data".
Proof.
  apply (decryptCV_rejects_wrong_tag (repeat 2%N 32) (repeat 1%N 16) [] (repeat 0%N 16)
           Scenario.world0).
  - reflexivity.
  - reflexivity.
  - reflexivity.
  - repeat constructor.
  - vm_compute. discriminate.
Defined.

(** Property X4.  [getDecryptionKey] itself honours the viewer list: for a
    seal object whose policy has [requireApproval] true, a non-empty wallet
    identity presented without a code is granted if and only if it is the
    owner's or one of [allowedViewers], compared without case, and is refused
    otherwise.  The identities compared are ASCII, where the model's
    [toLowerCase] is JavaScript's. *)
Theorem approval_required_checks_owner_and_viewers (w : World) (sid : string)
  (so : SealObject) (v : string) (vs : list string) :
  sealObjects w !! sid = Some so ->
  requireApproval (policy so) = Some true ->
  allowedViewers (policy so) = Some vs ->
  v <> "" ->
  Js.isAscii v = true -> Js.isAscii (ownerAddress so) = true ->
  forallb Js.isAscii vs = true ->
  (fst (SealService.getDecryptionKey sid (Some v) None w) = granted so <->
   sameIdentity v (ownerAddress so) \/ exists a, In a vs /\ sameIdentity a v) /\
  (~ (sameIdentity v (ownerAddress so) \/ exists a, In a vs /\ sameIdentity a v) ->
   fst (SealService.getDecryptionKey sid (Some v) None w) = Throw (notAuthorized v)).
Proof.
  intros Hso Hr Hvs Hv _ _ _. rewrite (getDecryptionKey_found _ _ _ _ _ Hso). cbn [fst].
  rewrite evaluate_wallet by done. rewrite Hr, Hvs. cbn [default negb].
  rewrite orb_false_r.
  destruct (String.eqb_spec (Js.toLowerCase v) (Js.toLowerCase (ownerAddress so)))
    as [Ho|Ho]; cbn [orb].
  - split; [|intros N; destruct N; by left]. split; [by left|done].
  - destruct (Js.some _ vs) eqn:Hs.
    + apply some_lower_spec in Hs.
      split; [|intros N; destruct N; by right]. split; [by right|done].
    + assert (Hn : ~ exists a, In a vs /\ sameIdentity a v).
      { intros E. apply some_lower_spec in E. congruence. }
      split; [|done]. split; [discriminate|]. intros [E|E]; [done|by destruct Hn].
Qed.

Lemma approval_required_checks_owner_and_viewers_witness :
  let w := Scenario.sealedGuarded in
  let so := Scenario.sealObjectAt w Scenario.sealId0 in
  let v := "0X1110000002"%string in
  (fst (SealService.getDecryptionKey Scenario.sealId0 (Some v) None w) = granted so <->
   sameIdentity v (ownerAddress so) \/
   exists a, In a [Scenario.viewer] /\ sameIdentity a v) /\
  (~ (sameIdentity v (ownerAddress so) \/
      exists a, In a [Scenario.viewer] /\ sameIdentity a v) ->
   fst (SealService.getDecryptionKey Scenario.sealId0 (Some v) None w)
     = Throw (notAuthorized v)).
Proof.
  apply (approval_required_checks_owner_and_viewers Scenario.sealedGuarded
           Scenario.sealId0 (Scenario.sealObjectAt Scenario.sealedGuarded Scenario.sealId0)
           "0X1110000002" [Scenario.viewer]).
  - vm_compute; reflexivity.
  - vm_compute; reflexivity.
  - vm_compute; reflexivity.
  - discriminate.
  - reflexivity.
  - vm_compute; reflexivity.
  - reflexivity.
Defined.

Lemma guarded_viewer_list_is_honoured :
  let w := Scenario.sealedGuarded in
  let so := Scenario.sealObjectAt w Scenario.sealId0 in
  fst (SealService.getDecryptionKey Scenario.sealId0 (Some "0X1110000002") None w)
    = granted so /\
  fst (SealService.getDecryptionKey Scenario.sealId0 (Some Scenario.stranger) None w)
    = Throw (notAuthorized Scenario.stranger).
Proof. vm_compute. repeat split. Qed.

(** * Further properties of the rest of the server

    The register route step by step and with the retrieval routes, the
    signed owner download, [MemStorage] with its two [Map]s, the listing by
    wallet, the mock blob store and [truncateHash]. *)

(** ** The register route, step by step *)

(** The record [createCVProof] builds, field by field. *)
Lemma createCVProof_record (ins : MemStorage.InsertCVProof) (w : World) :
  MemStorage.createCVProof ins w =
  (Ok {| id := Crypto.uuidString (Crypto.uuidBytes (nextBytes w 0 16));
         walletAddress := MemStorage.insWalletAddress ins;
         fileHash := MemStorage.insFileHash ins;
         sealObjectId := MemStorage.insSealObjectId ins;
         ciphertextHash := MemStorage.insCiphertextHash ins;
         contentId := MemStorage.insContentId ins;
         storageUrl := MemStorage.insStorageUrl ins;
         txHash := MemStorage.insTxHash ins;
         proofCode := MemStorage.insProofCode ins;
         proofSecretAccessCode := MemStorage.insSecretAccessCode ins;
         proofAllowedViewers := MemStorage.insAllowedViewers ins;
         proofCreatedAt := now w |},
   withCVProof (withDrawn w 16) (MemStorage.insProofCode ins)
     {| id := Crypto.uuidString (Crypto.uuidBytes (nextBytes w 0 16));
        walletAddress := MemStorage.insWalletAddress ins;
        fileHash := MemStorage.insFileHash ins;
        sealObjectId := MemStorage.insSealObjectId ins;
        ciphertextHash := MemStorage.insCiphertextHash ins;
        contentId := MemStorage.insContentId ins;
        storageUrl := MemStorage.insStorageUrl ins;
        txHash := MemStorage.insTxHash ins;
        proofCode := MemStorage.insProofCode ins;
        proofSecretAccessCode := MemStorage.insSecretAccessCode ins;
        proofAllowedViewers := MemStorage.insAllowedViewers ins;
        proofCreatedAt := now w |}).
Proof.
  unfold MemStorage.createCVProof.
  by rewrite (bind_run _ _ _ _ _ (randomUUID_run _)).
Qed.

(** What the route has done when it calls the anchoring service, and what
    each answer of the service leads to. *)
Lemma register_steps anchor policyOf buf name data w :
  10 <= String.length (reqWalletAddress data) ->
  exists ct so sid cid w4,
    SealService.decipher ct (encryptionKey so) = Ok buf /\
    length ct = length buf + 32 /\
    ownerAddress so = reqWalletAddress data /\
    policy so =
      policyOf (reqAccessMode data) (reqAllowedViewers data) (registeredCode data w) /\
    sealObjects w4 = <[sid := so]> (sealObjects w) /\
    cvProofs w4 = cvProofs w /\
    calls w4 = calls w ++ [CallComputeCiphertextHash ct] /\
    (forall m,
       anchor (Sha256.hexdigest buf) cid (reqWalletAddress data) sid (Sha256.hexdigest ct)
         = Throw m ->
       Routes.register anchor policyOf (Some (buf, name)) data w =
         (Ok {| status := 500; body := Message m |}, w4)) /\
    (forall tx pc,
       anchor (Sha256.hexdigest buf) cid (reqWalletAddress data) sid (Sha256.hexdigest ct)
         = Ok (tx, pc) ->
       exists p,
         Routes.register anchor policyOf (Some (buf, name)) data w =
           (Ok {| status := 201; body := ProofJson p |},
            withCVProof (withDrawn w4 16) pc p) /\
         proofCode p = pc /\ txHash p = tx /\ sealObjectId p = sid /\
         contentId p = cid /\
         walletAddress p = reqWalletAddress data /\
         fileHash p = Sha256.hexdigest buf /\
         ciphertextHash p = Sha256.hexdigest ct /\
         proofSecretAccessCode p = Js.or_else (registeredCode data w) None).
Proof.
  intros Hlen.
  destruct (generate_code_run data w) as (wc & Hcode & Hso & Hpr).
  pose proof (encryptCV_run buf (reqWalletAddress data)
               (Some (policyOf (reqAccessMode data) (reqAllowedViewers data)
                        (registeredCode data w))) wc) as Henc.
  cbv zeta in Henc.
  set (key := nextBytes wc 0 32) in *. set (iv := nextBytes wc 32 16) in *.
  set (ct := iv ++ (Gcm.encrypt key iv buf).1 ++ (Gcm.encrypt key iv buf).2) in *.
  set (sid := "seal_" +:+ Buf.toHex (nextBytes wc 48 16)) in *.
  set (so := {| ownerAddress := reqWalletAddress data; encryptionKey := Buf.toHex key;
                policy := default SealService.defaultPolicy
                  (Some (policyOf (reqAccessMode data) (reqAllowedViewers data)
                           (registeredCode data w)));
                createdAt := now wc |}) in *.
  set (w2 := withSealObject (withDrawn (withDrawn (withDrawn wc 32) 16) 16) sid so) in *.
  set (w3 := withCall w2 (CallComputeCiphertextHash ct)).
  destruct (uploadCVToWalrus_run ct ("encrypted-" +:+ name) w3) as (up & Hup).
  exists ct, so, sid, (Walrus.uploadContentId up), (withDrawn w3 16).
  assert (Hcalls : calls wc = calls w).
  { revert Hcode. unfold registeredCode, generatesCode.
    destruct (_ && _).
    - rewrite (bind_run _ _ _ _ _ (randomBytes_run _ _)). unfold ret. by intros [= <-].
    - unfold ret. by intros [= <-]. }
  split.
  { apply decipher_encrypted;
      [apply length_nextBytes | apply length_nextBytes | apply nextBytes_lt]. }
  split.
  { unfold ct. rewrite !length_app. unfold iv at 1. rewrite length_nextBytes.
    unfold Gcm.encrypt. cbn [fst snd]. rewrite length_gctr, length_tagOf. lia. }
  split; [reflexivity|]. split; [reflexivity|].
  split; [cbn; by rewrite Hso|]. split; [cbn; by rewrite Hpr|].
  split; [unfold w3, w2; cbn [calls withDrawn withCall withSealObject]; by rewrite Hcalls|].
  assert (Hrun : forall r,
    anchor (Sha256.hexdigest buf) (Walrus.uploadContentId up) (reqWalletAddress data)
      sid (Sha256.hexdigest ct) = r ->
    Routes.register anchor policyOf (Some (buf, name)) data w =
    try_catch
      (anchored <- lift r ;;
       proof <- MemStorage.createCVProof
                  {| MemStorage.insWalletAddress := reqWalletAddress data;
                     MemStorage.insFileHash := Sha256.hexdigest buf;
                     MemStorage.insSealObjectId := sid;
                     MemStorage.insCiphertextHash := Sha256.hexdigest ct;
                     MemStorage.insContentId := Walrus.uploadContentId up;
                     MemStorage.insStorageUrl := Walrus.uploadStorageUrl up;
                     MemStorage.insTxHash := fst anchored;
                     MemStorage.insProofCode := snd anchored;
                     MemStorage.insSecretAccessCode :=
                       Js.or_else (registeredCode data w) None;
                     MemStorage.insAllowedViewers :=
                       if Routes.isMode specific_wallets (reqAccessMode data)
                       then reqAllowedViewers data else None |} ;;
       Routes.json 201 (ProofJson proof))
      (fun message => Routes.json 500 (Message message)) (withDrawn w3 16)).
  { intros r Hr. unfold Routes.register, try_catch.
    rewrite (proj2 (Nat.ltb_ge _ _) Hlen).
    step_with Hcode. step_with Henc.
    cbn [SealService.ciphertext SealService.resultSealObjectId].
    rewrite (bind_run _ _ _ _ _ (computeCiphertextHash_run _ _)).
    fold w3. step_with Hup. by rewrite Hr. }
  split.
  - intros m Hm. rewrite (Hrun _ Hm). reflexivity.
  - intros tx pc Ha. rewrite (Hrun _ Ha).
    unfold try_catch, lift at 1, bind at 1. cbn [fst snd].
    match goal with |- context [bind (MemStorage.createCVProof ?i) _ ?w0] =>
      rewrite (bind_run _ _ _ _ _ (createCVProof_record i w0)) end.
    unfold Routes.json, ret.
    eexists. split; [reflexivity|]. repeat split.
Qed.
Lemma length_toLowerCase (s : string) : String.length (Js.toLowerCase s) = String.length s.
Proof. induction s as [|c s IH]; [reflexivity|]. cbn. by rewrite IH. Qed.

Lemma sameIdentity_nonempty (v o : string) :
  sameIdentity v o -> 10 <= String.length o -> v <> "".
Proof.
  unfold sameIdentity. intros E Hl ->.
  apply (f_equal String.length) in E. rewrite !length_toLowerCase in E. cbn in E. lia.
Qed.

(** The owner's wallet passes the wallet check of any policy. *)
Lemma evaluate_owner (so : SealObject) (v : string) :
  v <> "" -> sameIdentity v (ownerAddress so) ->
  SealService.evaluate so (Some v) None = granted so.
Proof.
  intros Hv Hid. rewrite evaluate_wallet by done.
  unfold sameIdentity in Hid. by rewrite (proj2 (String.eqb_eq _ _) Hid).
Qed.

(** The decrypted route when every step succeeds. *)
Lemma decryptedWith_success store w code v c p ct so pdf :
  cvProofs w !! code = Some p ->
  store (contentId p) = Some ct ->
  sealObjects w !! sealObjectId p = Some so ->
  SealService.evaluate so v c = granted so ->
  Sha256.hexdigest ct = ciphertextHash p ->
  SealService.decipher ct (encryptionKey so) = Ok pdf ->
  fst (Routes.decryptedWith (Walrus.retrieveFromStore store) code v c w) =
  Ok {| status := 200; body := Pdf pdf ("cv-" +:+ Js.substring0 8 code +:+ ".pdf") |}.
Proof.
  intros Hp Hs Hso He Hh Hd.
  unfold Routes.decryptedWith, try_catch.
  rewrite (bind_run _ _ w w (Some p))
    by (unfold MemStorage.getCVProofByCode; by rewrite Hp).
  rewrite (bind_run _ _ w (withCall w (CallRetrieveFromWalrus (contentId p))) (Some ct))
    by (unfold Walrus.retrieveFromStore, bind, called, ret; by rewrite Hs).
  assert (Hso1 : sealObjects (withCall w (CallRetrieveFromWalrus (contentId p)))
                   !! sealObjectId p = Some so) by exact Hso.
  pose proof (getDecryptionKey_found _ _ so v c Hso1) as Hk. rewrite He in Hk.
  step_with Hk.
  rewrite (bind_run _ _ _ _ _ (computeCiphertextHash_run _ _)).
  rewrite Hh, String.eqb_refl. cbn [negb].
  cbn [SealService.decryptKey].
  rewrite (bind_run _ _ _ _ pdf)
    by (rewrite decryptCV_run, Hd; reflexivity).
  reflexivity.
Qed.

Lemma register_success_inv anchor policyOf buf name data w p w' :
  Routes.register anchor policyOf (Some (buf, name)) data w =
    (Ok {| status := 201; body := ProofJson p |}, w') ->
  10 <= String.length (reqWalletAddress data) /\
  exists ct so,
    SealService.decipher ct (encryptionKey so) = Ok buf /\
    ownerAddress so = reqWalletAddress data /\
    policy so =
      policyOf (reqAccessMode data) (reqAllowedViewers data) (registeredCode data w) /\
    calls w' = calls w ++ [CallComputeCiphertextHash ct] /\
    sealObjects w' !! sealObjectId p = Some so /\
    cvProofs w' !! proofCode p = Some p /\
    ciphertextHash p = Sha256.hexdigest ct /\
    fileHash p = Sha256.hexdigest buf /\
    proofSecretAccessCode p = Js.or_else (registeredCode data w) None /\
    walletAddress p = reqWalletAddress data.
Proof.
  intros H.
  destruct (Nat.le_gt_cases 10 (String.length (reqWalletAddress data))) as [Hlen|Hlen].
  2:{ unfold Routes.register, try_catch in H.
      rewrite (proj2 (Nat.ltb_lt _ _) Hlen) in H. discriminate H. }
  split; [done|].
  destruct (register_steps anchor policyOf buf name data w Hlen)
    as (ct & so & sid & cid & w4 & Hd & _ & Ho & Hpol & Hso & Hpr & Hc & Hthrow & Hok).
  destruct (anchor (Sha256.hexdigest buf) cid (reqWalletAddress data) sid
              (Sha256.hexdigest ct)) as [[tx pc]|m] eqn:Ha.
  - destruct (Hok tx pc eq_refl)
      as (q & Hq & Hpc & _ & Hsid & _ & Hwal & Hfh & Hch & Hsec).
    rewrite Hq in H. injection H as -> <-.
    exists ct, so. repeat split; try done.
    + cbn. by rewrite Hsid, Hso, lookup_insert_eq.
    + cbn. by rewrite Hpc, lookup_insert_eq.
  - rewrite (Hthrow m eq_refl) in H. discriminate H.
Qed.

(** ** Registration and retrieval together *)

(** Property X5.  Registration and retrieval compose.  After a registration
    answered 201, if the blob store returns, under the record's content id,
    the ciphertext the registration hashed and uploaded, the decrypted route
    answers a request that presents the registrant's wallet address (in any
    letter case) and no code with 200 and the very bytes that were uploaded,
    under the file name [cv-<first 8 characters of the proof code>.pdf];
    whatever the access mode and the policy builder. *)
Theorem owner_reads_back_the_document anchor policyOf buf name data w p w'
  (store : string -> option (list N)) (ct : list N) (v : string) :
  Routes.register anchor policyOf (Some (buf, name)) data w =
    (Ok {| status := 201; body := ProofJson p |}, w') ->
  calls w' = calls w ++ [CallComputeCiphertextHash ct] ->
  store (contentId p) = Some ct ->
  sameIdentity v (reqWalletAddress data) ->
  fst (Routes.decryptedWith (Walrus.retrieveFromStore store) (proofCode p)
         (Some v) None w') =
  Ok {| status := 200;
        body := Pdf buf ("cv-" +:+ Js.substring0 8 (proofCode p) +:+ ".pdf") |}.
Proof.
  intros H Hc Hs Hid.
  destruct (register_success_inv _ _ _ _ _ _ _ _ H)
    as (Hlen & ct' & so & Hd & Ho & _ & Hc' & Hso & Hp & Hh & _).
  rewrite Hc in Hc'. apply app_inv_head in Hc'. injection Hc' as <-.
  apply (decryptedWith_success store w' (proofCode p) (Some v) None p ct so buf);
    try done.
  apply evaluate_owner; [by eapply sameIdentity_nonempty | by rewrite Ho].
Qed.

(** Property X6.  In [secret_code] mode the code of the record opens the
    document to anybody: with the ciphertext of the registration in the blob
    store, the decrypted route answers 200 with the uploaded bytes to a
    request that presents the record's [secretAccessCode], with any wallet
    address or none.  The policy builder is any that stores the code it is
    given, as both versions of the route do. *)
Theorem code_holder_reads_the_document anchor policyOf buf name data w p w'
  (store : string -> option (list N)) (ct : list N) (v : option string) (code : string) :
  (forall mode viewers c, secretAccessCode (policyOf mode viewers c) = c) ->
  reqAccessMode data = Some secret_code ->
  Routes.register anchor policyOf (Some (buf, name)) data w =
    (Ok {| status := 201; body := ProofJson p |}, w') ->
  calls w' = calls w ++ [CallComputeCiphertextHash ct] ->
  store (contentId p) = Some ct ->
  proofSecretAccessCode p = Some code ->
  fst (Routes.decryptedWith (Walrus.retrieveFromStore store) (proofCode p)
         v (Some code) w') =
  Ok {| status := 200;
        body := Pdf buf ("cv-" +:+ Js.substring0 8 (proofCode p) +:+ ".pdf") |}.
Proof.
  intros Hpol Hm H Hc Hs Hcode.
  destruct (register_success_inv _ _ _ _ _ _ _ _ H)
    as (Hlen & ct' & so & Hd & Ho & Hp' & Hc' & Hso & Hp & Hh & _ & Hsec & _).
  rewrite Hc in Hc'. apply app_inv_head in Hc'. injection Hc' as <-.
  destruct (registeredCode_secret_mode data w Hm) as (code' & Hr & Hne & _).
  rewrite Hr in Hsec, Hp'. unfold Js.or_else in Hsec.
  rewrite (proj2 (truthy_Some code') Hne), Hcode in Hsec. injection Hsec as ->.
  apply (decryptedWith_success store w' (proofCode p) v (Some code') p ct so buf);
    try done.
  rewrite (evaluate_code so v code' code' Hne Hne) by (by rewrite Hp', Hpol).
  by rewrite bool_decide_eq_true_2.
Qed.

(** ** The outcomes of a registration *)






(** ** What the retrieval routes leave alone *)

(** Property X8.  The decrypted route only reads.  Over any blob store it
    never throws (every error is turned into a response), it leaves the seal
    objects, the proofs and the randomness drawn as they were, it answers 404
    [Proof not found] for an unknown proof code without recording any call,
    and it answers with a document only when the proof exists, its seal
    object exists and the access evaluation granted the request. *)
Theorem decrypted_only_reads (store : string -> option (list N)) (w : World)
  (code : string) (v c : option string) :
  let out := Routes.decryptedWith (Walrus.retrieveFromStore store) code v c w in
  (exists r, fst out = Ok r) /\
  sealObjects (snd out) = sealObjects w /\
  cvProofs (snd out) = cvProofs w /\
  drawn (snd out) = drawn w /\
  (cvProofs w !! code = None ->
   out = (Ok {| status := 404; body := Message "Proof not found" |}, w)) /\
  (forall bytes name,
     fst out = Ok {| status := 200; body := Pdf bytes name |} ->
     exists p so,
       cvProofs w !! code = Some p /\
       sealObjects w !! sealObjectId p = Some so /\
       SealService.evaluate so v c = granted so).
Proof.
  intros out. pose proof (eq_refl out) as E. unfold out at 2 in E. clearbody out.
  unfold Routes.decryptedWith, try_catch in E.
  destruct (cvProofs w !! code) as [p|] eqn:Hp.
  2:{ rewrite (bind_run _ _ w w None) in E
        by (unfold MemStorage.getCVProofByCode; by rewrite Hp).
      unfold Routes.json, ret in E. subst out. cbn [fst snd].
      repeat split; eauto. discriminate. }
  rewrite (bind_run _ _ w w (Some p)) in E
    by (unfold MemStorage.getCVProofByCode; by rewrite Hp).
  set (w1 := withCall w (CallRetrieveFromWalrus (contentId p))) in *.
  destruct (store (contentId p)) as [buf|] eqn:Hs.
  2:{ rewrite (bind_run _ _ w w1 None) in E
        by (unfold Walrus.retrieveFromStore, bind, called, ret; by rewrite Hs).
      unfold Routes.json, ret in E. subst out. cbn [fst snd].
      repeat split; eauto; discriminate. }
  rewrite (bind_run _ _ w w1 (Some buf)) in E
    by (unfold Walrus.retrieveFromStore, bind, called, ret; by rewrite Hs).
  destruct (sealObjects w !! sealObjectId p) as [so|] eqn:Hso.
  2:{ pose proof (getDecryptionKey_missing w1 (sealObjectId p) v c Hso) as Hk.
      unfold bind at 1 in E. rewrite Hk in E.
      unfold Routes.decryptError, Routes.json, ret in E. subst out.
      cbn [fst snd]. repeat split; eauto; discriminate. }
  pose proof (getDecryptionKey_found w1 (sealObjectId p) so v c Hso) as Hk.
  destruct (SealService.evaluate so v c) as [key|m] eqn:He.
  2:{ unfold bind at 1 in E. rewrite Hk in E.
      unfold Routes.decryptError, Routes.json, ret in E. subst out.
      cbn [fst snd]. repeat split; eauto; discriminate. }
  assert (Hg : Ok key = granted so).
  { revert He. unfold SealService.evaluate, granted.
    repeat match goal with |- context [if ?b then _ else _] => destruct b end;
      congruence. }
  rewrite (bind_run _ _ _ _ _ Hk) in E.
  rewrite (bind_run _ _ _ _ _ (computeCiphertextHash_run _ _)) in E.
  destruct (negb _).
  { unfold Routes.json, ret in E. subst out. cbn [fst snd].
    repeat split; eauto; discriminate. }
  unfold bind at 1 in E. rewrite decryptCV_run in E.
  destruct (SealService.decipher _ _) as [pdf|m].
  - unfold Routes.json, ret in E. subst out. cbn [fst snd].
    repeat split; eauto; try discriminate.
    intros bytes name _. exists p, so. by rewrite <- Hg.
  - unfold Routes.decryptError, Routes.json, ret in E. subst out.
    cbn [fst snd]. repeat split; eauto; discriminate.
Qed.

(** ** The signed owner download *)

(** Property X9.  The signed owner download, given all three fields
    non-empty: a signature that does not verify is answered 401 with nothing
    touched; a verified wallet that differs from the record's wallet address
    (case-insensitively) is answered 403 with nothing touched; and a document
    is served only when the signature verified and the wallet is the
    record's.  [verify] is any signature check; the wallet of the request and
    that of the record are ASCII, where the model's [toLowerCase] is
    JavaScript's. *)
Theorem decryptOwner_serves_the_owner_only
  (verify : string -> string -> string -> result bool)
  (store : string -> option (list N)) (w : World) (code wallet nonce signature : string) :
  wallet <> "" -> nonce <> "" -> signature <> "" ->
  Js.isAscii wallet = true ->
  (forall p, cvProofs w !! code = Some p -> Js.isAscii (walletAddress p) = true) ->
  let out := MoreRoutes.decryptOwnerWith verify (Walrus.retrieveFromStore store) code
               (Some wallet) (Some nonce) (Some signature) w in
  (verify nonce wallet signature = Ok false ->
   out = (Ok {| status := 401; body := Message "Invalid signature or expired challenge" |}, w)) /\
  (forall p, verify nonce wallet signature = Ok true ->
     cvProofs w !! code = Some p ->
     ~ sameIdentity (walletAddress p) wallet ->
     out = (Ok {| status := 403; body := Message "You do not own this CV proof" |}, w)) /\
  (forall bytes name,
     fst out = Ok {| status := 200; body := Pdf bytes name |} ->
     verify nonce wallet signature = Ok true /\
     exists p, cvProofs w !! code = Some p /\ sameIdentity (walletAddress p) wallet).
Proof.
  intros Hw Hn Hs _ _ out.
  pose proof (eq_refl out) as E. unfold out at 2 in E. clearbody out.
  unfold MoreRoutes.decryptOwnerWith, try_catch in E.
  rewrite (proj2 (truthy_Some wallet) Hw), (proj2 (truthy_Some nonce) Hn),
    (proj2 (truthy_Some signature) Hs) in E.
  cbn [negb orb] in E.
  change (default "" (Some wallet)) with wallet in E.
  change (default "" (Some nonce)) with nonce in E.
  change (default "" (Some signature)) with signature in E.
  destruct (verify nonce wallet signature) as [[|]|m] eqn:Hv.
  2:{ unfold lift, bind, Routes.json, ret in E. cbn [negb fst snd] in E. subst out.
      split; [done|]. split; [discriminate|]. cbn [fst]. discriminate. }
  2:{ unfold lift, bind, Routes.json, ret in E. cbn [fst snd] in E. subst out.
      split; [discriminate|]. split; [discriminate|]. cbn [fst]. discriminate. }
  unfold lift at 1, bind at 1 in E. cbn [negb] in E.
  split; [discriminate|].
  destruct (cvProofs w !! code) as [p|] eqn:Hp.
  2:{ rewrite (bind_run _ _ w w None) in E
        by (unfold MemStorage.getCVProofByCode; by rewrite Hp).
      unfold Routes.json, ret in E. subst out.
      split; [discriminate|]. cbn [fst]. discriminate. }
  rewrite (bind_run _ _ w w (Some p)) in E
    by (unfold MemStorage.getCVProofByCode; by rewrite Hp).
  destruct (String.eqb_spec (Js.toLowerCase (walletAddress p)) (Js.toLowerCase wallet))
    as [Hid|Hid]; cbn [negb] in E.
  2:{ unfold Routes.json, ret in E. subst out.
      split; [by intros p' _ [= <-] _|]. cbn [fst]. discriminate. }
  split; [intros p' _ [= <-] N; by destruct N|].
  intros bytes name _. split; [done|]. by exists p.
Qed.

(** The route when every step succeeds. *)
Lemma decryptOwnerWith_success verify store w code wallet nonce signature p ct so pdf :
  wallet <> "" -> nonce <> "" -> signature <> "" ->
  verify nonce wallet signature = Ok true ->
  cvProofs w !! code = Some p ->
  sameIdentity (walletAddress p) wallet ->
  store (contentId p) = Some ct ->
  sealObjects w !! sealObjectId p = Some so ->
  SealService.evaluate so (Some wallet) None = granted so ->
  Sha256.hexdigest ct = ciphertextHash p ->
  SealService.decipher ct (encryptionKey so) = Ok pdf ->
  fst (MoreRoutes.decryptOwnerWith verify (Walrus.retrieveFromStore store) code
         (Some wallet) (Some nonce) (Some signature) w) =
  Ok {| status := 200; body := Pdf pdf ("cv-" +:+ Js.substring0 8 code +:+ ".pdf") |}.
Proof.
  intros Hw Hn Hs Hv Hp Hid Hst Hso He Hh Hd.
  unfold MoreRoutes.decryptOwnerWith, try_catch.
  rewrite (proj2 (truthy_Some wallet) Hw), (proj2 (truthy_Some nonce) Hn),
    (proj2 (truthy_Some signature) Hs).
  cbn [negb orb].
  change (default "" (Some wallet)) with wallet.
  change (default "" (Some nonce)) with nonce.
  change (default "" (Some signature)) with signature.
  rewrite Hv. unfold lift at 1, bind at 1. cbn [negb].
  rewrite (bind_run _ _ w w (Some p))
    by (unfold MemStorage.getCVProofByCode; by rewrite Hp).
  unfold sameIdentity in Hid. rewrite (proj2 (String.eqb_eq _ _) Hid). cbn [negb].
  rewrite (bind_run _ _ w (withCall w (CallRetrieveFromWalrus (contentId p))) (Some ct))
    by (unfold Walrus.retrieveFromStore, bind, called, ret; by rewrite Hst).
  assert (Hso1 : sealObjects (withCall w (CallRetrieveFromWalrus (contentId p)))
                   !! sealObjectId p = Some so) by exact Hso.
  pose proof (getDecryptionKey_found _ _ so (Some wallet) None Hso1) as Hk.
  rewrite He in Hk. step_with Hk.
  rewrite (bind_run _ _ _ _ _ (computeCiphertextHash_run _ _)).
  rewrite Hh, String.eqb_refl. cbn [negb SealService.decryptKey].
  rewrite (bind_run _ _ _ _ pdf) by (rewrite decryptCV_run, Hd; reflexivity).
  reflexivity.
Qed.

(** Property X10.  The signed owner download returns the document.  After a
    registration answered 201, in any access mode, with the ciphertext of the
    registration in the blob store, a request by the registrant's wallet (any
    letter case) with a nonce and a signature that verify is answered 200
    with the uploaded bytes. *)
Theorem owner_download_returns_the_document anchor policyOf verify buf name data w p w'
  (store : string -> option (list N)) (ct : list N) (wallet nonce signature : string) :
  Routes.register anchor policyOf (Some (buf, name)) data w =
    (Ok {| status := 201; body := ProofJson p |}, w') ->
  calls w' = calls w ++ [CallComputeCiphertextHash ct] ->
  store (contentId p) = Some ct ->
  sameIdentity wallet (reqWalletAddress data) ->
  nonce <> "" -> signature <> "" ->
  verify nonce wallet signature = Ok true ->
  fst (MoreRoutes.decryptOwnerWith verify (Walrus.retrieveFromStore store) (proofCode p)
         (Some wallet) (Some nonce) (Some signature) w') =
  Ok {| status := 200;
        body := Pdf buf ("cv-" +:+ Js.substring0 8 (proofCode p) +:+ ".pdf") |}.
Proof.
  intros H Hc Hs Hid Hn Hsig Hv.
  destruct (register_success_inv _ _ _ _ _ _ _ _ H)
    as (Hlen & ct' & so & Hd & Ho & _ & Hc' & Hso & Hp & Hh & _ & _ & Hwal).
  rewrite Hc in Hc'. apply app_inv_head in Hc'. injection Hc' as <-.
  assert (Hne : wallet <> "") by (by eapply sameIdentity_nonempty).
  apply (decryptOwnerWith_success verify store w' (proofCode p) wallet nonce signature
           p ct so buf); try done.
  - unfold sameIdentity in *. by rewrite Hwal.
  - apply evaluate_owner; [done | by rewrite Ho].
Qed.

(** ** The ordered [Map] *)

Section JsMapFacts.

Context {V : Type}.
Implicit Types (m : list (string * V)) (k : string) (v : V).

Lemma get_set_eq k v m : JsMap.get k (JsMap.set k v m) = Some v.
Proof.
  induction m as [|[k' v'] m IH]; cbn.
  - by rewrite String.eqb_refl.
  - destruct (String.eqb_spec k' k) as [->|Hne]; cbn.
    + by rewrite String.eqb_refl.
    + by rewrite (proj2 (String.eqb_neq _ _) Hne).
Qed.

Lemma get_set_ne k k' v m : k <> k' -> JsMap.get k' (JsMap.set k v m) = JsMap.get k' m.
Proof.
  intros Hne. induction m as [|[k0 v0] m IH]; cbn.
  - by rewrite (proj2 (String.eqb_neq _ _) Hne).
  - destruct (String.eqb_spec k0 k) as [->|Hne0]; cbn.
    + by rewrite !(proj2 (String.eqb_neq _ _) Hne).
    + by rewrite IH.
Qed.

Lemma get_None_keys k m : JsMap.get k m = None <-> ~ In k (JsMap.keys m).
Proof.
  induction m as [|[k' v'] m IH]; cbn; [tauto|].
  destruct (String.eqb_spec k' k) as [->|Hne].
  - split; [discriminate|]. intros N. destruct N. by left.
  - rewrite IH. split; [intros N [E|I]; [done|by destruct N] | tauto].
Qed.

Lemma set_fresh k v m : JsMap.get k m = None -> JsMap.set k v m = m ++ [(k, v)].
Proof.
  induction m as [|[k' v'] m IH]; cbn; [done|].
  destruct (String.eqb_spec k' k) as [->|Hne]; [discriminate|].
  intros H. by rewrite IH.
Qed.

Lemma keys_set k v m :
  JsMap.keys (JsMap.set k v m) =
  match JsMap.get k m with
  | Some _ => JsMap.keys m
  | None => JsMap.keys m ++ [k]
  end.
Proof.
  unfold JsMap.keys.
  induction m as [|[k' v'] m IH]; cbn; [done|].
  destruct (String.eqb_spec k' k) as [->|Hne]; cbn; [done|].
  rewrite IH. by destruct (JsMap.get k m).
Qed.

Lemma NoDup_keys_set k v m :
  NoDup (JsMap.keys m) -> NoDup (JsMap.keys (JsMap.set k v m)).
Proof.
  intros H. rewrite keys_set.
  destruct (JsMap.get k m) eqn:E; [done|].
  apply NoDup_app. split; [done|]. split; [|apply NoDup_singleton].
  intros x Hx Hk. apply list_elem_of_singleton in Hk as ->.
  apply get_None_keys in E. apply E. by apply list_elem_of_In.
Qed.

Lemma In_values_get m x :
  NoDup (JsMap.keys m) ->
  (In x (JsMap.values m) <-> exists k, JsMap.get k m = Some x).
Proof.
  induction m as [|[k' v'] m IH]; intros Hnd; cbn.
  - split; [done|]. by intros [k E].
  - cbn in Hnd. apply NoDup_cons in Hnd as [Hk Hnd]. split.
    + intros [<-|Hx].
      * exists k'. by rewrite String.eqb_refl.
      * apply IH in Hx as [k E]; [|done]. exists k.
        destruct (String.eqb_spec k' k) as [->|Hne]; [|done].
        destruct Hk. apply list_elem_of_In.
        apply Decidable.not_not; [unfold Decidable.decidable; destruct (in_dec string_dec k (JsMap.keys m)); tauto|].
        intros N. apply get_None_keys in N. congruence.
    + intros [k E]. destruct (String.eqb_spec k' k) as [->|Hne].
      * left. congruence.
      * right. apply IH; [done|]. by exists k.
Qed.

End JsMapFacts.

(** ** The users and the proofs of [MemStorage] *)

Lemma find_snoc {A} (f : A -> bool) (l : list A) (x : A) :
  find f (l ++ [x]) =
  match find f l with
  | Some y => Some y
  | None => if f x then Some x else None
  end.
Proof.
  induction l as [|a l IH]; cbn; [done|]. by destruct (f a).
Qed.

(** Property X11.  [createUser] keeps the fields it is given and stores the
    user under a fresh id: [getUser] on that id returns the user, every other
    id is answered as before, and when the id was not in use
    [getUserByUsername] returns the earliest user of that name, the new one
    only if there was none.  The proofs are not touched. *)
Theorem createUser_then_lookup (ins : InsertUser) (m : Mem) :
  exists user m',
    Storage.createUser ins m = (Ok user, m') /\
    username user = insUsername ins /\ password user = insPassword ins /\
    fst (Storage.getUser (userId user) m') = Ok (Some user) /\
    (forall id, id <> userId user ->
       fst (Storage.getUser id m') = fst (Storage.getUser id m)) /\
    (JsMap.get (userId user) (users m) = None ->
     fst (Storage.getUserByUsername (insUsername ins) m') =
     match fst (Storage.getUserByUsername (insUsername ins) m) with
     | Ok (Some earlier) => Ok (Some earlier)
     | _ => Ok (Some user)
     end) /\
    proofEntries m' = proofEntries m /\
    cvProofs (world m') = cvProofs (world m).
Proof.
  unfold Storage.createUser. rewrite randomUUID_run.
  eexists _, _. split; [reflexivity|].
  cbn [username password userId users proofEntries world].
  split; [done|]. split; [done|].
  split; [unfold Storage.getUser; cbn; by rewrite get_set_eq|].
  split; [intros id Hid; unfold Storage.getUser; cbn; by rewrite get_set_ne|].
  split; [|done].
  intros Hfresh. unfold Storage.getUserByUsername. cbn [fst users].
  rewrite (set_fresh _ _ _ Hfresh). unfold JsMap.values.
  rewrite map_app. cbn [map snd]. rewrite find_snoc.
  destruct (find _ _); [done|].
  cbn [username]. by rewrite String.eqb_refl.
Qed.

Lemma consistent_set (m : Mem) (w' : World) (code : string) (p : CVProof) :
  consistent m ->
  cvProofs w' = <[code := p]> (cvProofs (world m)) ->
  consistent {| world := w'; users := users m;
                proofEntries := JsMap.set code p (proofEntries m) |}.
Proof.
  intros [Hnd Hget] Hw. split; cbn [proofEntries world].
  - by apply NoDup_keys_set.
  - intros k. rewrite Hw. destruct (decide (code = k)) as [->|Hne].
    + by rewrite get_set_eq, lookup_insert_eq.
    + by rewrite get_set_ne, lookup_insert_ne.
Qed.

Lemma consistent_withWorld (m : Mem) (w' : World) :
  consistent m -> cvProofs w' = cvProofs (world m) ->
  consistent (Storage.withWorld m w').
Proof. intros [Hnd Hget] Hw. split; [done|]. intros k. cbn. by rewrite Hw. Qed.

(** Property X12.  [createCVProof] always succeeds; the record has the proof
    code and wallet address it was given and the current date; the [Map] and
    its key-value view stay consistent; [getCVProofByCode] on the new code
    returns the new record and every other code is answered as before; and
    the [Map] grows by one entry exactly when the code was new (a record
    under the same code is replaced in place). *)
Theorem createCVProof_keeps_the_maps_consistent (ins : MemStorage.InsertCVProof) (m : Mem) :
  consistent m ->
  exists p m',
    Storage.createCVProof ins m = (Ok p, m') /\
    consistent m' /\
    proofCode p = MemStorage.insProofCode ins /\
    walletAddress p = MemStorage.insWalletAddress ins /\
    proofCreatedAt p = now (world m) /\
    fst (Storage.getCVProofByCode (MemStorage.insProofCode ins) m') = Ok (Some p) /\
    fst (MemStorage.getCVProofByCode (MemStorage.insProofCode ins) (world m'))
      = Ok (Some p) /\
    (forall code, code <> MemStorage.insProofCode ins ->
       fst (Storage.getCVProofByCode code m') = fst (Storage.getCVProofByCode code m)) /\
    length (proofEntries m') =
      match JsMap.get (MemStorage.insProofCode ins) (proofEntries m) with
      | Some _ => length (proofEntries m)
      | None => S (length (proofEntries m))
      end.
Proof.
  intros Hc. unfold Storage.createCVProof.
  destruct (createCVProof_run ins (world m)) as (p & Hp & Hpc & _ & _ & Hw).
  rewrite Hp. eexists _, _. split; [reflexivity|].
  split.
  { apply consistent_set; [done|]. cbn. by rewrite Hpc. }
  split; [done|]. split; [done|].
  split.
  { revert Hp. unfold MemStorage.createCVProof.
    rewrite (bind_run _ _ _ _ _ (randomUUID_run _)).
    unfold newDate, bind, setCVProof, ret. by intros [= <- _]. }
  unfold Storage.getCVProofByCode, MemStorage.getCVProofByCode.
  cbn [fst proofEntries world]. rewrite Hpc.
  split; [by rewrite get_set_eq|].
  split; [cbn; by rewrite lookup_insert_eq|].
  split; [intros code Hne; by rewrite get_set_ne|].
  pose proof (keys_set (MemStorage.insProofCode ins) p (proofEntries m)) as Hk.
  apply (f_equal (@length string)) in Hk. unfold JsMap.keys in Hk.
  rewrite length_map in Hk. rewrite Hk.
  destruct (JsMap.get _ _); rewrite ?length_app, !length_map; cbn; lia.
Qed.

(** ** The listing by wallet *)

(** Property X13.  [GET /api/proofs/wallet/:walletAddress] always answers
    200 and changes nothing; the list holds exactly the stored records whose
    wallet address equals the requested one when both are put in lower case,
    and is empty when there is none.  The requested address and the stored
    ones are ASCII, where the model's [toLowerCase] is JavaScript's. *)
Theorem listing_holds_the_wallets_proofs (wallet : string) (m : Mem) :
  consistent m ->
  Js.isAscii wallet = true ->
  forallb (fun p => Js.isAscii (walletAddress p)) (JsMap.values (proofEntries m)) = true ->
  exists l,
    MoreRoutes.proofsByWallet wallet m = ({| listStatus := 200; listBody := inl l |}, m) /\
    (forall p, In p l <->
       exists code, cvProofs (world m) !! code = Some p /\
                    sameIdentity (walletAddress p) wallet) /\
    ((forall code p, cvProofs (world m) !! code = Some p ->
        ~ sameIdentity (walletAddress p) wallet) -> l = []).
Proof.
  intros [Hnd Hget] _ _. eexists. split; [reflexivity|].
  assert (Hin : forall p,
    In p (List.filter (fun proof => String.eqb (Js.toLowerCase (walletAddress proof))
                                 (Js.toLowerCase wallet))
            (JsMap.values (proofEntries m))) <->
    exists code, cvProofs (world m) !! code = Some p /\
                 sameIdentity (walletAddress p) wallet).
  { intros p. rewrite List.filter_In, (In_values_get _ _ Hnd). unfold sameIdentity.
    rewrite String.eqb_eq. split.
    - intros [[k E] Hw]. exists k. by rewrite <- Hget.
    - intros [k [E Hw]]. split; [|done]. exists k. by rewrite Hget. }
  split; [exact Hin|].
  intros Hnone.
  destruct (List.filter _ _) as [|p l] eqn:E; [done|].
  destruct (proj1 (Hin p) (or_introl eq_refl)) as (code & Hc & Hw).
  by destruct (Hnone code p Hc).
Qed.

Lemma register_proofs anchor policyOf file data w :
  let out := Routes.register anchor policyOf file data w in
  (exists p,
     fst out = Ok {| status := 201; body := ProofJson p |} /\
     cvProofs (snd out) = <[proofCode p := p]> (cvProofs w) /\
     walletAddress p = reqWalletAddress data) \/
  (exists s b,
     fst out = Ok {| status := s; body := b |} /\ (s = 400%N \/ s = 500%N) /\
     cvProofs (snd out) = cvProofs w).
Proof.
  intros out. subst out.
  destruct file as [[buf name]|]; [|right; eexists _, _; split; [reflexivity|by split; [left|]]].
  destruct (Nat.le_gt_cases 10 (String.length (reqWalletAddress data))) as [Hlen|Hlen].
  2:{ right. exists 400%N, ValidationFailed.
      unfold Routes.register, try_catch.
      rewrite (proj2 (Nat.ltb_lt _ _) Hlen). by split; [|split; [left|]]. }
  destruct (register_steps anchor policyOf buf name data w Hlen)
    as (ct & so & sid & cid & w4 & _ & _ & _ & _ & _ & Hpr & _ & Hthrow & Hok).
  destruct (anchor (Sha256.hexdigest buf) cid (reqWalletAddress data) sid
              (Sha256.hexdigest ct)) as [[tx pc]|m] eqn:Ha.
  - left. destruct (Hok tx pc eq_refl) as (q & Hq & Hpc & _ & _ & _ & Hw & _).
    exists q. rewrite Hq. cbn [fst snd]. split; [done|]. split; [|done].
    cbn. by rewrite Hpc, Hpr.
  - right. exists 500%N, (Message m). rewrite (Hthrow m eq_refl). cbn [fst snd].
    by split; [|split; [right|]].
Qed.

Lemma tracked_register_shape anchor policyOf file data (m : Mem) :
  consistent m ->
  let out := MoreRoutes.register anchor policyOf file data m in
  consistent (snd out) /\
  fst out = fst (Routes.register anchor policyOf file data (world m)) /\
  world (snd out) = snd (Routes.register anchor policyOf file data (world m)) /\
  forall p,
    fst out = Ok {| status := 201; body := ProofJson p |} ->
    proofEntries (snd out) = JsMap.set (proofCode p) p (proofEntries m) /\
    walletAddress p = reqWalletAddress data.
Proof.
  intros Hc out. subst out. unfold MoreRoutes.register.
  pose proof (register_proofs anchor policyOf file data (world m)) as Ho.
  cbv zeta in Ho.
  destruct (Routes.register anchor policyOf file data (world m)) as [r w'] eqn:E.
  cbn [fst snd] in Ho.
  destruct Ho as [(p & -> & Hpr & Hwal)|(s & b & -> & [-> | ->] & Hpr)].
  - cbn [fst snd]. split; [by apply consistent_set|]. split; [done|]. split; [done|].
    by intros q [= <-].
  - cbn [fst snd]. split; [by apply consistent_withWorld|]. repeat split; discriminate.
  - cbn [fst snd]. split; [by apply consistent_withWorld|]. repeat split; discriminate.
Qed.

Lemma register_keeps_consistent anchor policyOf file data (m : Mem) :
  consistent m -> consistent (snd (MoreRoutes.register anchor policyOf file data m)).
Proof. intros H. by destruct (tracked_register_shape anchor policyOf file data m H). Qed.

(** Property X14.  The register route with the order of the [Map] kept
    answers as [Routes.register] does and leaves the same world; it keeps the
    [Map] consistent; and the record of a registration answered 201 is in
    the listing of the registrant's wallet (asked in any letter case) right
    afterwards, as the last element of it when the proof code was new. *)
Theorem registered_proof_is_listed anchor policyOf file data (m : Mem) :
  consistent m ->
  let out := MoreRoutes.register anchor policyOf file data m in
  consistent (snd out) /\
  fst out = fst (Routes.register anchor policyOf file data (world m)) /\
  world (snd out) = snd (Routes.register anchor policyOf file data (world m)) /\
  forall p v,
    fst out = Ok {| status := 201; body := ProofJson p |} ->
    sameIdentity v (reqWalletAddress data) ->
    exists l,
      fst (MoreRoutes.proofsByWallet v (snd out))
        = {| listStatus := 200; listBody := inl l |} /\
      In p l /\
      (cvProofs (world m) !! proofCode p = None ->
       exists l0,
         fst (MoreRoutes.proofsByWallet v m)
           = {| listStatus := 200; listBody := inl l0 |} /\
         l = l0 ++ [p]).
Proof.
  intros Hc out. subst out.
  destruct (tracked_register_shape anchor policyOf file data m Hc)
    as (Hc' & Hfst & Hw & Hent).
  split; [done|]. split; [done|]. split; [done|].
  intros p v Hp Hid. destruct (Hent p Hp) as [He Hwal].
  unfold MoreRoutes.proofsByWallet, Storage.getCVProofsByWallet.
  cbn [fst snd listStatus listBody]. rewrite He.
  assert (Hmatch : String.eqb (Js.toLowerCase (walletAddress p)) (Js.toLowerCase v) = true).
  { apply String.eqb_eq. unfold sameIdentity in Hid. by rewrite Hwal. }
  eexists. split; [reflexivity|]. split.
  - apply List.filter_In. split; [|done].
    apply In_values_get; [apply NoDup_keys_set, Hc|].
    exists (proofCode p). apply get_set_eq.
  - intros Hnew. eexists. split; [reflexivity|].
    destruct Hc as [_ Hget]. rewrite <- Hget in Hnew.
    rewrite (set_fresh _ _ _ Hnew). unfold JsMap.values.
    rewrite map_app, List.filter_app. cbn [map snd List.filter]. by rewrite Hmatch.
Qed.

(** ** Strings *)

Lemma length_append (a b : string) :
  String.length (a +:+ b) = String.length a + String.length b.
Proof. induction a as [|c a IH]; simpl; [done|]. by rewrite IH. Qed.

Lemma length_substring0 (n : nat) (s : string) :
  String.length (Js.substring0 n s) = Nat.min n (String.length s).
Proof.
  revert s. induction n as [|n IH]; intros [|c s]; simpl; try done. by rewrite IH.
Qed.

Lemma length_substringFrom (n : nat) (s : string) :
  String.length (Pages.substringFrom n s) = String.length s - n.
Proof.
  revert s. induction n as [|n IH]; intros [|c s]; simpl; try done.
Qed.

Lemma substring0_append (a b : string) :
  Js.substring0 (String.length a) (a +:+ b) = a.
Proof. induction a as [|c a IH]; simpl; [by destruct b|]. by rewrite IH. Qed.

Lemma substringFrom_append (a b : string) :
  Pages.substringFrom (String.length a) (a +:+ b) = b.
Proof. induction a as [|c a IH]; simpl; [by destruct b|]. done. Qed.

Lemma toHex_app (a b : list N) : Buf.toHex (a ++ b) = Buf.toHex a +:+ Buf.toHex b.
Proof.
  induction a as [|x a IH]; [done|]. cbn [app]. rewrite !toHex_cons. simpl.
  by rewrite IH.
Qed.

Lemma removeDashes_append (a b : string) :
  Walrus.removeDashes (a +:+ b) = Walrus.removeDashes a +:+ Walrus.removeDashes b.
Proof.
  induction a as [|c a IH]; simpl; [done|]. destruct (Ascii.eqb c "-"); simpl; by rewrite IH.
Qed.

Lemma hexDigit_not_dash (n : N) : (n < 16)%N -> Ascii.eqb (Buf.hexDigit n) "-" = false.
Proof.
  intros Hn.
  assert (Hall : forallb (fun k => negb (Ascii.eqb (Buf.hexDigit k) "-"))
                   (map N.of_nat (seq 0 16)) = true) by (vm_compute; reflexivity).
  rewrite forallb_forall in Hall.
  apply negb_true_iff, Hall.
  rewrite <- (N2Nat.id n). apply in_map, in_seq. lia.
Qed.

Lemma removeDashes_toHex (b : list N) : Walrus.removeDashes (Buf.toHex b) = Buf.toHex b.
Proof.
  induction b as [|x b IH]; [done|]. rewrite toHex_cons. cbn [Walrus.removeDashes].
  rewrite !hexDigit_not_dash by (apply N.mod_lt; lia). by rewrite IH.
Qed.

Lemma removeDashes_uuidString (b : list N) :
  Walrus.removeDashes (Crypto.uuidString b) = Buf.toHex b.
Proof.
  unfold Crypto.uuidString.
  rewrite !removeDashes_append, !removeDashes_toHex.
  change (Walrus.removeDashes "-") with EmptyString.
  repeat match goal with |- context [EmptyString +:+ ?x] =>
    change (EmptyString +:+ x) with x end.
  rewrite <- !toHex_app. f_equal.
  replace (drop 10 b) with (drop 2 (drop 8 b)) by (by rewrite drop_drop).
  rewrite take_drop.
  replace (drop 8 b) with (drop 2 (drop 6 b)) by (by rewrite drop_drop).
  rewrite take_drop.
  replace (drop 6 b) with (drop 2 (drop 4 b)) by (by rewrite drop_drop).
  by rewrite !take_drop.
Qed.

(** ** The blob store of the mock, both ways *)

(** Property X15.  The two halves of the mock blob store do not meet.
    [uploadCVToWalrus] always succeeds and returns the content id
    [walrus_<32 hex characters>] (the UUID without its dashes, 39 characters
    in all) and the URL [https://walrus.storage/blob/<content id>]; but
    [retrieveFromWalrus] on that content id returns null in every later
    state, and [GET /api/cv/:contentId] answers 404 [File not found]. *)
Theorem uploaded_blob_cannot_be_retrieved (fileBuffer : list N) (fileName : string)
  (w : World) :
  exists up,
    Walrus.uploadCVToWalrus fileBuffer fileName w = (Ok up, withDrawn w 16) /\
    Walrus.uploadContentId up =
      "walrus_" +:+ Buf.toHex (Crypto.uuidBytes (nextBytes w 0 16)) /\
    String.length (Walrus.uploadContentId up) = 39 /\
    Walrus.uploadStorageUrl up =
      "https://walrus.storage/blob/" +:+ Walrus.uploadContentId up /\
    (forall w2, fst (Walrus.retrieveFromWalrus (Walrus.uploadContentId up) w2) = Ok None) /\
    (forall w2, fst (MoreRoutes.download (Walrus.uploadContentId up) w2) =
                Ok {| status := 404; body := Message "File not found" |}).
Proof.
  unfold Walrus.uploadCVToWalrus.
  rewrite (bind_run _ _ _ _ _ (randomUUID_run _)). unfold ret.
  eexists. split; [reflexivity|].
  cbn [Walrus.uploadContentId Walrus.uploadStorageUrl].
  rewrite removeDashes_uuidString.
  split; [done|]. split.
  { rewrite length_append, length_toHex. unfold Crypto.uuidBytes.
    rewrite !length_insert, length_nextBytes. reflexivity. }
  split; [done|]. split; [done|]. done.
Qed.

(** ** What [encryptCV] adds *)

Lemma hexDigit_hex (n : N) :
  (n < 16)%N -> In (Buf.hexDigit n) (list_ascii_of_string "0123456789abcdef").
Proof.
  intros Hn.
  assert (Hall : forallb (fun k => existsb (Ascii.eqb (Buf.hexDigit k))
                                     (list_ascii_of_string "0123456789abcdef"))
                   (map N.of_nat (seq 0 16)) = true) by (vm_compute; reflexivity).
  rewrite forallb_forall in Hall.
  assert (Hin : In n (map N.of_nat (seq 0 16))).
  { rewrite <- (N2Nat.id n). apply in_map, in_seq. lia. }
  apply Hall, existsb_exists in Hin. destruct Hin as (c & Hc & E).
  apply Ascii.eqb_eq in E. by rewrite E.
Qed.

Lemma toHex_hexDigits (b : list N) : hexDigits (Buf.toHex b).
Proof.
  induction b as [|x r IH]; [intros c []|].
  rewrite toHex_cons. intros c [<-|[<-|Hc]].
  - apply hexDigit_hex, N.mod_lt. lia.
  - apply hexDigit_hex, N.mod_lt. lia.
  - by apply IH.
Qed.

(** Property X16.  [encryptCV] always succeeds: the ciphertext is 32 bytes
    longer than the document (IV and tag); the seal object id is [seal_]
    followed by 32 lower-case hex digits, the hex form of 16 random bytes;
    the stored key is 64 lower-case hex digits, the hex form of 32 random
    bytes; exactly one seal object is added, under that id, with the owner
    given, the policy given (or the default one) and the current date; every
    other seal object, the proofs and the recorded calls are unchanged, and
    64 random bytes are drawn. *)
Theorem encryptCV_adds_one_seal_object (pdfBytes : list N) (owner : string)
  (pol : option Policy) (w : World) :
  exists enc so w' h,
    SealService.encryptCV pdfBytes owner pol w = (Ok enc, w') /\
    length (SealService.ciphertext enc) = length pdfBytes + 32 /\
    SealService.resultSealObjectId enc = "seal_" +:+ h /\
    h = Buf.toHex (nextBytes w 48 16) /\
    String.length h = 32 /\ hexDigits h /\
    encryptionKey so = Buf.toHex (nextBytes w 0 32) /\
    String.length (encryptionKey so) = 64 /\ hexDigits (encryptionKey so) /\
    ownerAddress so = owner /\
    policy so = default SealService.defaultPolicy pol /\
    createdAt so = now w /\
    sealObjects w' !! SealService.resultSealObjectId enc = Some so /\
    (forall other, other <> SealService.resultSealObjectId enc ->
       sealObjects w' !! other = sealObjects w !! other) /\
    cvProofs w' = cvProofs w /\ calls w' = calls w /\ drawn w' = drawn w + 64.
Proof.
  rewrite encryptCV_run.
  exists {| SealService.ciphertext :=
              nextBytes w 32 16 ++
              fst (Gcm.encrypt (nextBytes w 0 32) (nextBytes w 32 16) pdfBytes) ++
              snd (Gcm.encrypt (nextBytes w 0 32) (nextBytes w 32 16) pdfBytes);
            SealService.resultSealObjectId :=
              "seal_" +:+ Buf.toHex (nextBytes w 48 16) |},
         {| ownerAddress := owner;
            encryptionKey := Buf.toHex (nextBytes w 0 32);
            policy := default SealService.defaultPolicy pol;
            createdAt := now w |}.
  eexists. exists (Buf.toHex (nextBytes w 48 16)). split; [reflexivity|].
  cbn [SealService.ciphertext SealService.resultSealObjectId encryptionKey
       ownerAddress policy createdAt sealObjects cvProofs calls drawn
       withSealObject withDrawn].
  split.
  { rewrite !length_app, length_nextBytes. unfold Gcm.encrypt. cbn [fst snd].
    rewrite length_gctr, length_tagOf. lia. }
  split; [done|]. split; [done|].
  split; [by rewrite length_toHex, length_nextBytes|].
  split; [apply toHex_hexDigits|].
  split; [done|].
  split; [by rewrite length_toHex, length_nextBytes|].
  split; [apply toHex_hexDigits|].
  split; [done|]. split; [done|]. split; [done|].
  split; [apply lookup_insert_eq|].
  split; [intros other Hne; by rewrite lookup_insert_ne|].
  split; [done|]. split; [done|]. lia.
Qed.

(** ** A policy that stores no code *)

(** Property X17.  With no policy given, [encryptCV] stores
    [{allowedViewers: [], secretAccessCode: undefined, requireApproval:
    false}]: then [getDecryptionKey] grants every non-empty wallet address,
    whatever code comes with it, and a request with a code but no wallet
    address is refused with the missing-credential message, since there is no
    stored code to compare with. *)
Theorem default_policy_opens_to_every_wallet (pdfBytes : list N) (owner : string)
  (w : World) (v : string) (c : option string) :
  v <> "" ->
  exists enc so w',
    SealService.encryptCV pdfBytes owner None w = (Ok enc, w') /\
    sealObjects w' !! SealService.resultSealObjectId enc = Some so /\
    fst (SealService.getDecryptionKey (SealService.resultSealObjectId enc) (Some v) c w')
      = granted so /\
    fst (SealService.getDecryptionKey (SealService.resultSealObjectId enc) None c w')
      = Throw missingCredential.
Proof.
  intros Hv. rewrite encryptCV_run. eexists _, _, _. split; [reflexivity|].
  cbn [SealService.resultSealObjectId].
  assert (L : forall so sid (w0 : World),
    sealObjects (withSealObject w0 sid so) !! sid = Some so)
    by (intros; apply lookup_insert_eq).
  split; [apply L|].
  rewrite !(getDecryptionKey_found _ _ _ _ _ (L _ _ _)). cbn [fst].
  split.
  - rewrite evaluate_wallet; [|done|cbn; by rewrite andb_false_r].
    cbn. by rewrite orb_true_r.
  - unfold SealService.evaluate. cbn. by rewrite andb_false_r.
Qed.

Lemma default_policy_opens_to_every_wallet_witness :
  exists enc so w',
    SealService.encryptCV Scenario.pdf Scenario.owner None Scenario.world0 = (Ok enc, w') /\
    sealObjects w' !! SealService.resultSealObjectId enc = Some so /\
    fst (SealService.getDecryptionKey (SealService.resultSealObjectId enc)
           (Some Scenario.stranger) (Some Scenario.code0) w') = granted so /\
    fst (SealService.getDecryptionKey (SealService.resultSealObjectId enc)
           None (Some Scenario.code0) w') = Throw missingCredential.
Proof.
  apply (default_policy_opens_to_every_wallet Scenario.pdf Scenario.owner
           Scenario.world0 Scenario.stranger (Some Scenario.code0)).
  discriminate.
Defined.

(** ** [truncateHash] *)

Lemma length_digest (msg : list N) : length (Sha256.digest msg) = 32.
Proof. unfold Sha256.digest. cbn [map concat]. by rewrite !length_app, !length_ofNum. Qed.

(** Property X18.  [truncateHash]: a hash of at most [startChars + endChars]
    characters is returned whole; a longer one becomes its first
    [startChars] characters, three dots and its last [endChars] characters,
    [startChars + 3 + endChars] in all.  With the defaults (12 and 12) a
    SHA-256 hex digest is printed in 27 characters. *)
Theorem truncateHash_keeps_both_ends (hash : string) (s e : nat) :
  (String.length hash <= s + e -> Pages.truncateHash hash s e = hash) /\
  (s + e < String.length hash ->
   String.length (Pages.truncateHash hash s e) = s + 3 + e /\
   Js.substring0 s (Pages.truncateHash hash s e) = Js.substring0 s hash /\
   Pages.substringFrom (s + 3) (Pages.truncateHash hash s e) =
     Pages.substringFrom (String.length hash - e) hash) /\
  (forall msg, String.length (Pages.truncateHash (Sha256.hexdigest msg) 12 12) = 27).
Proof.
  assert (Hlong : s + e < String.length hash ->
   String.length (Pages.truncateHash hash s e) = s + 3 + e /\
   Js.substring0 s (Pages.truncateHash hash s e) = Js.substring0 s hash /\
   Pages.substringFrom (s + 3) (Pages.truncateHash hash s e) =
     Pages.substringFrom (String.length hash - e) hash).
  { intros H. unfold Pages.truncateHash.
    rewrite (proj2 (Nat.leb_gt _ _)) by lia.
    assert (Ls : String.length (Js.substring0 s hash) = s)
      by (rewrite length_substring0; lia).
    split; [|split].
    - rewrite !length_append, Ls, length_substringFrom. cbn. lia.
    - rewrite <- Ls at 1. by rewrite substring0_append.
    - replace (s + 3) with (String.length (Js.substring0 s hash +:+ "..."))
        by (rewrite length_append, Ls; reflexivity).
      change (Js.substring0 s hash +:+ "..." +:+ ?x)
        with (Js.substring0 s hash +:+ ("..." +:+ x)).
      generalize (Pages.substringFrom (String.length hash - e) hash). intros t.
      assert (A : forall a b c, a +:+ (b +:+ c) = (a +:+ b) +:+ c).
      { intros a b c. induction a as [|x a IH]; [done|].
        change (String x (a +:+ (b +:+ c)) = String x ((a +:+ b) +:+ c)).
        by rewrite IH. }
      rewrite A. apply substringFrom_append. }
  split; [|split; [exact Hlong|]].
  - intros H. unfold Pages.truncateHash. by rewrite (proj2 (Nat.leb_le _ _) H).
  - intros msg.
    assert (L : String.length (Sha256.hexdigest msg) = 64)
      by (unfold Sha256.hexdigest; by rewrite length_toHex, length_digest).
    unfold Pages.truncateHash. rewrite L. cbn [Nat.add Nat.leb].
    rewrite !length_append, length_substring0, length_substringFrom, L. reflexivity.
Qed.

(** ** Concrete runs *)

Lemma consistent_mem0 : consistent Example.mem0.
Proof. split; [constructor|]. intros k. reflexivity. Qed.

Lemma consistent_mem1 : consistent Example.mem1.
Proof. apply register_keeps_consistent, consistent_mem0. Qed.

Lemma owner_reads_back_the_document_witness :
  let w' := Scenario.registered owner_only None in
  let p := Scenario.proofAt w' Scenario.proofCode0 in
  fst (Routes.decryptedWith
         (Walrus.retrieveFromStore (Scenario.storeOf (Example.uploaded w')))
         (proofCode p) (Some "0xabc0000001") None w') =
  Ok {| status := 200;
        body := Pdf Scenario.pdf ("cv-" +:+ Js.substring0 8 (proofCode p) +:+ ".pdf") |}.
Proof.
  apply (owner_reads_back_the_document Scenario.anchor Routes.registerPolicy
           Scenario.pdf "cv.pdf" (Scenario.request owner_only None) Scenario.world0
           (Scenario.proofAt (Scenario.registered owner_only None) Scenario.proofCode0)
           (Scenario.registered owner_only None)
           (Scenario.storeOf (Example.uploaded (Scenario.registered owner_only None)))
           (Example.uploaded (Scenario.registered owner_only None)) "0xabc0000001").
  - vm_compute; reflexivity.
  - vm_compute; reflexivity.
  - reflexivity.
  - vm_compute; reflexivity.
Defined.

Lemma code_holder_reads_the_document_witness :
  let w' := Scenario.registered secret_code None in
  let p := Scenario.proofAt w' Scenario.proofCode0 in
  fst (Routes.decryptedWith
         (Walrus.retrieveFromStore (Scenario.storeOf (Example.uploaded w')))
         (proofCode p) None (Some Scenario.code0) w') =
  Ok {| status := 200;
        body := Pdf Scenario.pdf ("cv-" +:+ Js.substring0 8 (proofCode p) +:+ ".pdf") |}.
Proof.
  apply (code_holder_reads_the_document Scenario.anchor Routes.registerPolicy
           Scenario.pdf "cv.pdf" (Scenario.request secret_code None) Scenario.world0
           (Scenario.proofAt (Scenario.registered secret_code None) Scenario.proofCode0)
           (Scenario.registered secret_code None)
           (Scenario.storeOf (Example.uploaded (Scenario.registered secret_code None)))
           (Example.uploaded (Scenario.registered secret_code None)) None Scenario.code0).
  - reflexivity.
  - reflexivity.
  - vm_compute; reflexivity.
  - vm_compute; reflexivity.
  - reflexivity.
  - vm_compute; reflexivity.
Defined.

Lemma decryptOwner_serves_the_owner_only_witness :
  let w := Scenario.registeredAuth owner_only None in
  let out := MoreRoutes.decryptOwnerWith Example.verify
               (Walrus.retrieveFromStore (Scenario.storeOf (Example.uploaded w)))
               Scenario.proofCode0 (Some Scenario.stranger) (Some "nonce-1")
               (Some "nonce-1") w in
  (Example.verify "nonce-1" Scenario.stranger "nonce-1" = Ok false ->
   out = (Ok {| status := 401; body := Message "Invalid signature or expired challenge" |}, w)) /\
  (forall p, Example.verify "nonce-1" Scenario.stranger "nonce-1" = Ok true ->
     cvProofs w !! Scenario.proofCode0 = Some p ->
     ~ sameIdentity (walletAddress p) Scenario.stranger ->
     out = (Ok {| status := 403; body := Message "You do not own this CV proof" |}, w)) /\
  (forall bytes name,
     fst out = Ok {| status := 200; body := Pdf bytes name |} ->
     Example.verify "nonce-1" Scenario.stranger "nonce-1" = Ok true /\
     exists p, cvProofs w !! Scenario.proofCode0 = Some p /\
               sameIdentity (walletAddress p) Scenario.stranger).
Proof.
  apply (decryptOwner_serves_the_owner_only Example.verify
           (Scenario.storeOf (Example.uploaded (Scenario.registeredAuth owner_only None)))
           (Scenario.registeredAuth owner_only None)
           Scenario.proofCode0 Scenario.stranger "nonce-1" "nonce-1").
  - discriminate.
  - discriminate.
  - discriminate.
  - reflexivity.
  - intros p Hp. vm_compute in Hp. injection Hp as <-. reflexivity.
Defined.

Lemma owner_download_returns_the_document_witness :
  let w' := Scenario.registeredAuth owner_only None in
  let p := Scenario.proofAt w' Scenario.proofCode0 in
  fst (MoreRoutes.decryptOwnerWith Example.verify
         (Walrus.retrieveFromStore (Scenario.storeOf (Example.uploaded w')))
         (proofCode p) (Some "0xabc0000001") (Some "nonce-1") (Some "nonce-1") w') =
  Ok {| status := 200;
        body := Pdf Scenario.pdf ("cv-" +:+ Js.substring0 8 (proofCode p) +:+ ".pdf") |}.
Proof.
  apply (owner_download_returns_the_document Scenario.anchor Routes.registerPolicyAuth
           Example.verify Scenario.pdf "cv.pdf" (Scenario.request owner_only None)
           Scenario.world0
           (Scenario.proofAt (Scenario.registeredAuth owner_only None) Scenario.proofCode0)
           (Scenario.registeredAuth owner_only None)
           (Scenario.storeOf (Example.uploaded (Scenario.registeredAuth owner_only None)))
           (Example.uploaded (Scenario.registeredAuth owner_only None))
           "0xabc0000001" "nonce-1" "nonce-1").
  - vm_compute; reflexivity.
  - vm_compute; reflexivity.
  - reflexivity.
  - vm_compute; reflexivity.
  - discriminate.
  - discriminate.
  - reflexivity.
Defined.

Lemma createCVProof_keeps_the_maps_consistent_witness :
  let ins := {| MemStorage.insWalletAddress := Scenario.owner;
                MemStorage.insFileHash := "f0";
                MemStorage.insSealObjectId := Scenario.sealId0;
                MemStorage.insCiphertextHash := "c0";
                MemStorage.insContentId := "walrus_0";
                MemStorage.insStorageUrl := "https://walrus.storage/blob/walrus_0";
                MemStorage.insTxHash := "0xtx";
                MemStorage.insProofCode := Scenario.proofCode0;
                MemStorage.insSecretAccessCode := None;
                MemStorage.insAllowedViewers := None |} in
  let m := Example.mem1 in
  exists p m',
    Storage.createCVProof ins m = (Ok p, m') /\
    consistent m' /\
    proofCode p = MemStorage.insProofCode ins /\
    walletAddress p = MemStorage.insWalletAddress ins /\
    proofCreatedAt p = now (world m) /\
    fst (Storage.getCVProofByCode (MemStorage.insProofCode ins) m') = Ok (Some p) /\
    fst (MemStorage.getCVProofByCode (MemStorage.insProofCode ins) (world m'))
      = Ok (Some p) /\
    (forall code, code <> MemStorage.insProofCode ins ->
       fst (Storage.getCVProofByCode code m') = fst (Storage.getCVProofByCode code m)) /\
    length (proofEntries m') =
      match JsMap.get (MemStorage.insProofCode ins) (proofEntries m) with
      | Some _ => length (proofEntries m)
      | None => S (length (proofEntries m))
      end.
Proof.
  apply (createCVProof_keeps_the_maps_consistent
           {| MemStorage.insWalletAddress := Scenario.owner;
              MemStorage.insFileHash := "f0";
              MemStorage.insSealObjectId := Scenario.sealId0;
              MemStorage.insCiphertextHash := "c0";
              MemStorage.insContentId := "walrus_0";
              MemStorage.insStorageUrl := "https://walrus.storage/blob/walrus_0";
              MemStorage.insTxHash := "0xtx";
              MemStorage.insProofCode := Scenario.proofCode0;
              MemStorage.insSecretAccessCode := None;
              MemStorage.insAllowedViewers := None |} Example.mem1).
  exact consistent_mem1.
Defined.

Lemma listing_holds_the_wallets_proofs_witness :
  exists l,
    MoreRoutes.proofsByWallet "0xabc0000001" Example.mem1
      = ({| listStatus := 200; listBody := inl l |}, Example.mem1) /\
    (forall p, In p l <->
       exists code, cvProofs (world Example.mem1) !! code = Some p /\
                    sameIdentity (walletAddress p) "0xabc0000001") /\
    ((forall code p, cvProofs (world Example.mem1) !! code = Some p ->
        ~ sameIdentity (walletAddress p) "0xabc0000001") -> l = []).
Proof.
  apply (listing_holds_the_wallets_proofs "0xabc0000001" Example.mem1).
  - exact consistent_mem1.
  - reflexivity.
  - vm_compute; reflexivity.
Defined.

Lemma registered_proof_is_listed_witness :
  let out := MoreRoutes.register Scenario.anchor Routes.registerPolicy
               (Some (Scenario.pdf, "cv.pdf")) (Scenario.request owner_only None)
               Example.mem0 in
  consistent (snd out) /\
  fst out = fst (Routes.register Scenario.anchor Routes.registerPolicy
                   (Some (Scenario.pdf, "cv.pdf")) (Scenario.request owner_only None)
                   (world Example.mem0)) /\
  world (snd out) = snd (Routes.register Scenario.anchor Routes.registerPolicy
                           (Some (Scenario.pdf, "cv.pdf"))
                           (Scenario.request owner_only None) (world Example.mem0)) /\
  forall p v,
    fst out = Ok {| status := 201; body := ProofJson p |} ->
    sameIdentity v (reqWalletAddress (Scenario.request owner_only None)) ->
    exists l,
      fst (MoreRoutes.proofsByWallet v (snd out))
        = {| listStatus := 200; listBody := inl l |} /\
      In p l /\
      (cvProofs (world Example.mem0) !! proofCode p = None ->
       exists l0,
         fst (MoreRoutes.proofsByWallet v Example.mem0)
           = {| listStatus := 200; listBody := inl l0 |} /\
         l = l0 ++ [p]).
Proof.
  apply (registered_proof_is_listed Scenario.anchor Routes.registerPolicy
           (Some (Scenario.pdf, "cv.pdf")) (Scenario.request owner_only None)
           Example.mem0).
  exact consistent_mem0.
Defined.

(** The listing of the scenario, computed: the owner's wallet in lower case
    lists the one record, a stranger's lists none. *)
Lemma listing_of_the_scenario :
  fst (MoreRoutes.proofsByWallet "0xabc0000001" Example.mem1) =
    {| listStatus := 200;
       listBody := inl [Scenario.proofAt (world Example.mem1) Scenario.proofCode0] |} /\
  fst (MoreRoutes.proofsByWallet Scenario.stranger Example.mem1) =
    {| listStatus := 200; listBody := inl [] |}.
Proof. vm_compute. split; reflexivity. Qed.

(** When the anchoring service is down the registration is answered 500:
    no proof is stored, and the seal object made before the call stays. *)
Lemma anchoring_down_leaves_an_orphan :
  let out := MoreRoutes.register Example.anchorDown Routes.registerPolicy
               (Some (Scenario.pdf, "cv.pdf")) (Scenario.request owner_only None)
               Example.mem0 in
  fst out = Ok {| status := 500; body := Message "Sui RPC unavailable" |} /\
  proofEntries (snd out) = [] /\
  cvProofs (world (snd out)) !! Scenario.proofCode0 = None /\
  sealObjects (world (snd out)) !! Scenario.sealId0 =
    Some (Scenario.sealObjectAt (Scenario.registered owner_only None) Scenario.sealId0).
Proof. vm_compute. repeat split. Qed.


(** The front of the handler on the scenario: a file that is not a PDF, a
    list of viewers that is not JSON, a mode the schema does not know, and
    two requests that pass, one with the viewers as a repeated field. *)
Lemma front_of_the_scenario :
  let run part body :=
    fst (MoreRoutes.registerRequest Scenario.anchor Routes.registerPolicy
           Example.overLimit Example.parse part body Scenario.world0) in
  run (Some (Example.cvFile "image/png")) (Example.rawRequest Absent Absent)
    = Throw "Only PDF files are allowed" /\
  run (Some (Example.cvFile "application/pdf"))
      (Example.rawRequest (Text "specific_wallets") (Text "0x1110000002"))
    = Ok {| status := 400;
            body :=
              Message
                "Invalid allowedViewers format. Must be a JSON array of wallet addresses." |} /\
  run (Some (Example.cvFile "application/pdf")) (Example.rawRequest (Text "public") Absent)
    = Ok {| status := 400; body := ValidationFailed |} /\
  run (Some (Example.cvFile "application/pdf")) (Example.rawRequest (Text "owner_only") Absent)
    = Ok {| status := 201;
            body := ProofJson (Scenario.proofAt (Scenario.registered owner_only None)
                                 Scenario.proofCode0) |} /\
  run (Some (Example.cvFile "application/pdf"))
      (Example.rawRequest (Text "specific_wallets") (Repeated [Scenario.viewer]))
    = Ok {| status := 201;
            body := ProofJson (Scenario.proofAt
                                 (Scenario.registered specific_wallets
                                    (Some [Scenario.viewer]))
                                 Scenario.proofCode0) |}.
Proof. vm_compute. repeat split. Qed.
